(** * Task manager: the task card template and the board presenter

    A shallow embedding of [src/view/task-view.js] (the card template) and of
    the board presenter that follows it in the same source file
    ([BoardPresenter]): the derived task sequence, pagination, the routing of
    user actions to the tasks model and the reaction to model notifications.

    Collaborators whose code is not part of the sources (the models, the item
    and creation presenters, the filter table, the comparators, the UI blocker)
    are either parameters of a section or small models written from the
    specification; each of them says so in its comment. *)

From stdpp Require Import gmap strings list.
From Stdlib Require Import ZArith Ascii Sorted Permutation.

Local Open Scope Z_scope.
Local Open Scope nat_scope.

(** ** Data model *)

(** [const.js] is not part of the sources; the enumerations list the members
    the presenter names ([SortType], [UpdateType], [UserAction],
    [FilterType.ALL]) and, for the filter categories, the ones the
    specification gives as the fixed set. *)
Inductive SortType := DEFAULT | DATE_UP | DATE_DOWN.
Inductive UpdateType := PATCH | MINOR | MAJOR | INIT.
Inductive UserAction := UPDATE_TASK | ADD_TASK | DELETE_TASK.
Inductive FilterType := ALL | FAVORITES | REPEATING | OVERDUE | ARCHIVE.

#[global] Instance SortType_eq_dec : EqDecision SortType.
Proof. solve_decision. Defined.
#[global] Instance UpdateType_eq_dec : EqDecision UpdateType.
Proof. solve_decision. Defined.
#[global] Instance UserAction_eq_dec : EqDecision UserAction.
Proof. solve_decision. Defined.
#[global] Instance FilterType_eq_dec : EqDecision FilterType.
Proof. solve_decision. Defined.

(** Task ids are opaque keys of the presenter map; due dates are points in
    time (milliseconds), [None] for the [null] of a task without deadline. *)
Definition TaskId := nat.

Record Task := mkTask {
  id : TaskId;
  description : string;
  dueDate : option Z;
  repeating : list (string * bool);
  color : string;
  isArchive : bool;
  isFavorite : bool;
}.

Definition with_description (d : string) (t : Task) : Task :=
  mkTask (id t) d (dueDate t) (repeating t) (color t) (isArchive t) (isFavorite t).

(** ** The task card template ([createTaskTemplate]) *)

(** The double quote of the markup's attributes. *)
Definition dq : string := String "034"%char EmptyString.

Definition markup_open : string :=
  "<article class=" +:+ dq +:+ "card card--".

Definition markup_before_archive : string :=
  dq +:+ ">
      <div class=" +:+ dq +:+ "card__form" +:+ dq +:+ ">
        <div class=" +:+ dq +:+ "card__inner" +:+ dq +:+ ">
          <div class=" +:+ dq +:+ "card__control" +:+ dq +:+ ">
            <button type=" +:+ dq +:+ "button" +:+ dq +:+ " class=" +:+ dq +:+ "card__btn card__btn--edit" +:+ dq +:+ ">
              edit
            </button>
            <button type=" +:+ dq +:+ "button" +:+ dq +:+ " class=" +:+ dq +:+ "card__btn ".

Definition markup_before_favorite : string :=
  dq +:+ ">
              archive
            </button>
            <button
              type=" +:+ dq +:+ "button" +:+ dq +:+ "
              class=" +:+ dq +:+ "card__btn ".

Definition markup_before_text : string :=
  dq +:+ "
            >
              favorites
            </button>
          </div>

          <div class=" +:+ dq +:+ "card__color-bar" +:+ dq +:+ ">
            <svg class=" +:+ dq +:+ "card__color-bar-wave" +:+ dq +:+ " width=" +:+ dq +:+ "100%" +:+ dq +:+ " height=" +:+ dq +:+ "10" +:+ dq +:+ ">
              <use xlink:href=" +:+ dq +:+ "#wave" +:+ dq +:+ "></use>
            </svg>
          </div>

          <div class=" +:+ dq +:+ "card__textarea-wrap" +:+ dq +:+ ">
            <p class=" +:+ dq +:+ "card__text" +:+ dq +:+ ">".

Definition markup_before_date : string :=
  "</p>
          </div>

          <div class=" +:+ dq +:+ "card__settings" +:+ dq +:+ ">
            <div class=" +:+ dq +:+ "card__details" +:+ dq +:+ ">
              <div class=" +:+ dq +:+ "card__dates" +:+ dq +:+ ">
                <div class=" +:+ dq +:+ "card__date-deadline" +:+ dq +:+ ">
                  <p class=" +:+ dq +:+ "card__input-deadline-wrap" +:+ dq +:+ ">
                    <span class=" +:+ dq +:+ "card__date" +:+ dq +:+ ">".

Definition markup_close : string :=
  "</span>
                  </p>
                </div>
              </div>
            </div>
          </div>
        </div>
      </div>
    </article>".

Section TaskTemplate.
(** [he.encode] belongs to the library [he], and [utils/task.js] is not
    part of the sources: the encoder and the three helpers are parameters. *)
Variable encode : string → string.
Variable humanizeTaskDueDate : option Z → string.
Variable isTaskExpired : option Z → bool.
Variable isTaskRepeating : list (string * bool) → bool.

Definition createTaskTemplate (task : Task) : string :=
  let date := humanizeTaskDueDate (dueDate task) in
  let deadlineClassName :=
    if isTaskExpired (dueDate task) then "card--deadline" else EmptyString in
  let repeatClassName :=
    if isTaskRepeating (repeating task) then "card--repeat" else EmptyString in
  let archiveClassName :=
    if isArchive task then "card__btn--archive card__btn--disabled"
    else "card__btn--archive" in
  let favoriteClassName :=
    if isFavorite task then "card__btn--favorites card__btn--disabled"
    else "card__btn--favorites" in
  markup_open +:+ color task +:+ " " +:+ deadlineClassName +:+ " " +:+ repeatClassName
    +:+ markup_before_archive +:+ archiveClassName
    +:+ markup_before_favorite +:+ favoriteClassName
    +:+ markup_before_text +:+ encode (description task)
    +:+ markup_before_date +:+ date
    +:+ markup_close.
End TaskTemplate.

(** Where a string occurs in another: the text before and after its first
    occurrence. *)
Fixpoint drop_prefix (needle s : string) : option string :=
  match needle, s with
  | EmptyString, _ => Some s
  | String a needle', String b s' =>
      if Ascii.eqb a b then drop_prefix needle' s' else None
  | String _ _, EmptyString => None
  end.

Fixpoint split_at (needle s : string) : option (string * string) :=
  match drop_prefix needle s with
  | Some rest => Some (EmptyString, rest)
  | None =>
      match s with
      | EmptyString => None
      | String c s' =>
          match split_at needle s' with
          | Some (before, rest) => Some (String c before, rest)
          | None => None
          end
      end
  end.

Definition contains (needle s : string) : Prop :=
  ∃ before rest, s = before +:+ needle +:+ rest.

(** ** The card view ([TaskView])

    The view keeps one callback per button in [_callback] and attaches its
    own click handler to the button the selector finds in the card.  The
    framework class [AbstractView] and the DOM are not part of the sources:
    [_callback] starts empty, and [addEventListener] ignores a listener that
    is already registered on the element (the handlers are fields of the
    view, so registering one again is registering the same function). *)
Inductive CardButton := EditButton | FavoritesButton | ArchiveButton.
Inductive ClickHandler := editClickHandler | favoriteClickHandler | archiveClickHandler.

#[global] Instance CardButton_eq_dec : EqDecision CardButton.
Proof. solve_decision. Defined.
#[global] Instance ClickHandler_eq_dec : EqDecision ClickHandler.
Proof. solve_decision. Defined.

(** What a click does, in order: [evt.preventDefault()], the call of a
    callback, or the [TypeError] of calling a callback that was never set. *)
Inductive ViewEvent (Callback : Type) :=
  | PreventDefault
  | Invoke (callback : Callback)
  | UncaughtTypeError.
Arguments PreventDefault {Callback}.
Arguments Invoke {Callback} callback.
Arguments UncaughtTypeError {Callback}.

Record TaskView (Callback : Type) := mkTaskView {
  view_task : Task;
  editClick : option Callback;
  favoriteClick : option Callback;
  archiveClick : option Callback;
  listeners : list (CardButton * ClickHandler);
}.
Arguments mkTaskView {Callback} _ _ _ _ _.
Arguments view_task {Callback} _.
Arguments editClick {Callback} _.
Arguments favoriteClick {Callback} _.
Arguments archiveClick {Callback} _.
Arguments listeners {Callback} _.

Section TaskViewModel.
Context {Callback : Type}.

(** [new TaskView(task)] *)
Definition new_TaskView (task : Task) : TaskView Callback :=
  mkTaskView task None None None [].

Definition addEventListener (listener : CardButton * ClickHandler)
    (registered : list (CardButton * ClickHandler)) : list (CardButton * ClickHandler) :=
  if decide (listener ∈ registered) then registered else registered ++ [listener].

Definition setEditClickHandler (callback : Callback) (v : TaskView Callback) : TaskView Callback :=
  mkTaskView (view_task v) (Some callback) (favoriteClick v) (archiveClick v)
    (addEventListener (EditButton, editClickHandler) (listeners v)).

Definition setFavoriteClickHandler (callback : Callback) (v : TaskView Callback)
    : TaskView Callback :=
  mkTaskView (view_task v) (editClick v) (Some callback) (archiveClick v)
    (addEventListener (FavoritesButton, favoriteClickHandler) (listeners v)).

Definition setArchiveClickHandler (callback : Callback) (v : TaskView Callback)
    : TaskView Callback :=
  mkTaskView (view_task v) (editClick v) (favoriteClick v) (Some callback)
    (addEventListener (ArchiveButton, archiveClickHandler) (listeners v)).

(** The callback a handler calls. *)
Definition callback_of (handler : ClickHandler) (v : TaskView Callback) : option Callback :=
  match handler with
  | editClickHandler => editClick v
  | favoriteClickHandler => favoriteClick v
  | archiveClickHandler => archiveClick v
  end.

(** [#editClickHandler], [#favoriteClickHandler], [#archiveClickHandler] *)
Definition handle_click (handler : ClickHandler) (v : TaskView Callback)
    : list (ViewEvent Callback) :=
  PreventDefault ::
  match callback_of handler v with
  | Some callback => [Invoke callback]
  | None => [UncaughtTypeError]
  end.

(** A click on a button runs the listeners registered on it, in the order
    of their registration. *)
Definition click (button : CardButton) (v : TaskView Callback) : list (ViewEvent Callback) :=
  concat ((λ listener : CardButton * ClickHandler,
             if decide (listener.1 = button) then handle_click listener.2 v else [])
          <$> listeners v).

(** The handler each setter attaches to its button. *)
Definition handler_of (button : CardButton) : ClickHandler :=
  match button with
  | EditButton => editClickHandler
  | FavoritesButton => favoriteClickHandler
  | ArchiveButton => archiveClickHandler
  end.

(** The listeners the setters can have registered: each button at most once,
    with its own handler, whose callback is set. *)
Definition listeners_ok (v : TaskView Callback) : Prop :=
  NoDup (listeners v)
  ∧ ∀ button handler, (button, handler) ∈ listeners v →
      handler = handler_of button ∧ is_Some (callback_of handler v).
End TaskViewModel.

(** ** [Array.prototype.sort] and [Array.prototype.slice]

    ECMAScript requires [sort] to be stable, and for a consistent comparator
    the result is the one sorted arrangement that keeps equal elements in
    their input order.  The stable insertion sort below computes it: an
    element moves behind exactly the elements the comparator puts strictly
    before it ([array_sort_canonical] shows that no other sorted and stable
    arrangement exists).  For a comparator that is not consistent the
    standard leaves the order to the engine; of such a sort only what every
    engine guarantees is used, that the result is a rearrangement of the
    input. *)
Section ArraySort.
Context {A : Type} (cmp : A → A → Z).

Fixpoint sort_insert (x : A) (l : list A) : list A :=
  match l with
  | [] => [x]
  | y :: l' => if (0 <? cmp x y)%Z then y :: sort_insert x l' else x :: y :: l'
  end.

Definition array_sort (l : list A) : list A := foldr sort_insert [] l.

(** A consistent comparator, as ECMAScript defines it for [sort]: with
    [a =CF b] for [cmp a b = 0], [a <CF b] for [cmp a b < 0] and [a >CF b]
    for [cmp a b > 0], the relation [=CF] is reflexive, symmetric and
    transitive, and [<CF] and [>CF] are transitive.  (That the comparator
    returns the same number for the same pair holds of a function.) *)
Definition consistent_comparator : Prop :=
  (∀ a, cmp a a = 0)%Z
  ∧ (∀ a b, cmp a b = 0 → cmp b a = 0)%Z
  ∧ (∀ a b c, cmp a b = 0 → cmp b c = 0 → cmp a c = 0)%Z
  ∧ (∀ a b c, cmp a b < 0 → cmp b c < 0 → cmp a c < 0)%Z
  ∧ (∀ a b c, 0 < cmp a b → 0 < cmp b c → 0 < cmp a c)%Z.
End ArraySort.

(** [l.slice(from, to)] for indices that are natural numbers. *)
Definition slice {A : Type} (from to : nat) (l : list A) : list A :=
  take (to - from) (drop from l).

(** The page size of the board. *)
Definition TASK_COUNT_PER_STEP : nat := 8.

(** ** Collaborators of the board presenter *)

(** Modelled from the spec: the item presenter ([task-presenter.js]) is not
    part of the sources.  An Item Controller owns the rendered form of one
    task and a view state; [setSaving], [setDeleting] and [setAborting] move
    it to the state of that name, [init] (re)initialises it with task data in
    the Idle state, and [resetView] closes an open editor. *)
Inductive ViewState := Idle | Editing | Saving | Deleting | Aborting.

Record TaskPresenter := mkTaskPresenter {
  presented : Task;
  viewState : ViewState;
}.

Definition presenter_init (task : Task) : TaskPresenter := mkTaskPresenter task Idle.
Definition setSaving (p : TaskPresenter) : TaskPresenter := mkTaskPresenter (presented p) Saving.
Definition setDeleting (p : TaskPresenter) : TaskPresenter := mkTaskPresenter (presented p) Deleting.
Definition setAborting (p : TaskPresenter) : TaskPresenter := mkTaskPresenter (presented p) Aborting.
Definition resetView (p : TaskPresenter) : TaskPresenter :=
  match viewState p with
  | Editing => mkTaskPresenter (presented p) Idle
  | _ => p
  end.

(** Modelled from the spec: the creation presenter ([task-new-presenter.js])
    is not part of the sources.  The Creation Controller is Inactive until
    [init] shows the form, [destroy] hides it, and [setSaving] and
    [setAborting] move it to the state of that name. *)
Inductive CreationState := Inactive | Active | CreationSaving | CreationAborting.

Definition creation_init (c : CreationState) : CreationState :=
  match c with
  | Inactive => Active
  | _ => c
  end.



(** Calls the presenter makes on the UI blocker, on the tasks model and on
    the filter model, in the order they are made.  The presenter has no
    logging call, so no event stands for one. *)
Inductive Event :=
  | Block
  | Unblock
  | ModelCall (actionType : UserAction) (updateType : UpdateType) (update : Task)
  | SetFilter (updateType : UpdateType) (category : FilterType).

#[global] Instance ViewState_eq_dec : EqDecision ViewState.
Proof. solve_decision. Defined.
#[global] Instance CreationState_eq_dec : EqDecision CreationState.
Proof. solve_decision. Defined.

(** Modelled from the spec: the tasks model is not part of the sources.  A
    mutation either rejects, leaving the collection as it is and notifying
    nobody, or resolves: the model then holds a new collection and has
    notified its observers with the requested update kind and a payload. *)
Inductive ModelReply :=
  | Rejects
  | Resolves (collection : list Task) (payload : option Task).

(** ** State

    The private fields of [BoardPresenter] together with the two models it
    reads.  A view field holds what is mounted: [remove] unmounts a view and
    the presenter never reads a removed view again, so a removed view and
    [null] are both the empty value. *)
Record World := mkWorld {
  tasksModel : list Task;
  filterModel : FilterType;
  boardComponent : bool;
  taskListComponent : bool;
  loadingComponent : bool;
  noTaskComponent : option FilterType;
  sortComponent : option SortType;
  loadMoreButtonComponent : bool;
  renderedTaskCount : nat;
  taskPresenter : gmap TaskId TaskPresenter;
  taskNewPresenter : CreationState;
  currentSortType : SortType;
  filterType : FilterType;
  isLoading : bool;
  calls : list Event;
}.

Definition set_tasksModel (x : list Task) (w : World) : World :=
  mkWorld x (filterModel w) (boardComponent w) (taskListComponent w) (loadingComponent w)
    (noTaskComponent w) (sortComponent w) (loadMoreButtonComponent w) (renderedTaskCount w)
    (taskPresenter w) (taskNewPresenter w) (currentSortType w) (filterType w) (isLoading w)
    (calls w).
Definition set_filterModel (x : FilterType) (w : World) : World :=
  mkWorld (tasksModel w) x (boardComponent w) (taskListComponent w) (loadingComponent w)
    (noTaskComponent w) (sortComponent w) (loadMoreButtonComponent w) (renderedTaskCount w)
    (taskPresenter w) (taskNewPresenter w) (currentSortType w) (filterType w) (isLoading w)
    (calls w).
Definition set_boardComponent (x : bool) (w : World) : World :=
  mkWorld (tasksModel w) (filterModel w) x (taskListComponent w) (loadingComponent w)
    (noTaskComponent w) (sortComponent w) (loadMoreButtonComponent w) (renderedTaskCount w)
    (taskPresenter w) (taskNewPresenter w) (currentSortType w) (filterType w) (isLoading w)
    (calls w).
Definition set_taskListComponent (x : bool) (w : World) : World :=
  mkWorld (tasksModel w) (filterModel w) (boardComponent w) x (loadingComponent w)
    (noTaskComponent w) (sortComponent w) (loadMoreButtonComponent w) (renderedTaskCount w)
    (taskPresenter w) (taskNewPresenter w) (currentSortType w) (filterType w) (isLoading w)
    (calls w).
Definition set_loadingComponent (x : bool) (w : World) : World :=
  mkWorld (tasksModel w) (filterModel w) (boardComponent w) (taskListComponent w) x
    (noTaskComponent w) (sortComponent w) (loadMoreButtonComponent w) (renderedTaskCount w)
    (taskPresenter w) (taskNewPresenter w) (currentSortType w) (filterType w) (isLoading w)
    (calls w).
Definition set_noTaskComponent (x : option FilterType) (w : World) : World :=
  mkWorld (tasksModel w) (filterModel w) (boardComponent w) (taskListComponent w)
    (loadingComponent w) x (sortComponent w) (loadMoreButtonComponent w) (renderedTaskCount w)
    (taskPresenter w) (taskNewPresenter w) (currentSortType w) (filterType w) (isLoading w)
    (calls w).
Definition set_sortComponent (x : option SortType) (w : World) : World :=
  mkWorld (tasksModel w) (filterModel w) (boardComponent w) (taskListComponent w)
    (loadingComponent w) (noTaskComponent w) x (loadMoreButtonComponent w) (renderedTaskCount w)
    (taskPresenter w) (taskNewPresenter w) (currentSortType w) (filterType w) (isLoading w)
    (calls w).
Definition set_loadMoreButtonComponent (x : bool) (w : World) : World :=
  mkWorld (tasksModel w) (filterModel w) (boardComponent w) (taskListComponent w)
    (loadingComponent w) (noTaskComponent w) (sortComponent w) x (renderedTaskCount w)
    (taskPresenter w) (taskNewPresenter w) (currentSortType w) (filterType w) (isLoading w)
    (calls w).
Definition set_renderedTaskCount (x : nat) (w : World) : World :=
  mkWorld (tasksModel w) (filterModel w) (boardComponent w) (taskListComponent w)
    (loadingComponent w) (noTaskComponent w) (sortComponent w) (loadMoreButtonComponent w) x
    (taskPresenter w) (taskNewPresenter w) (currentSortType w) (filterType w) (isLoading w)
    (calls w).
Definition set_taskPresenter (x : gmap TaskId TaskPresenter) (w : World) : World :=
  mkWorld (tasksModel w) (filterModel w) (boardComponent w) (taskListComponent w)
    (loadingComponent w) (noTaskComponent w) (sortComponent w) (loadMoreButtonComponent w)
    (renderedTaskCount w) x (taskNewPresenter w) (currentSortType w) (filterType w)
    (isLoading w) (calls w).
Definition set_taskNewPresenter (x : CreationState) (w : World) : World :=
  mkWorld (tasksModel w) (filterModel w) (boardComponent w) (taskListComponent w)
    (loadingComponent w) (noTaskComponent w) (sortComponent w) (loadMoreButtonComponent w)
    (renderedTaskCount w) (taskPresenter w) x (currentSortType w) (filterType w)
    (isLoading w) (calls w).
Definition set_currentSortType (x : SortType) (w : World) : World :=
  mkWorld (tasksModel w) (filterModel w) (boardComponent w) (taskListComponent w)
    (loadingComponent w) (noTaskComponent w) (sortComponent w) (loadMoreButtonComponent w)
    (renderedTaskCount w) (taskPresenter w) (taskNewPresenter w) x (filterType w)
    (isLoading w) (calls w).
Definition set_filterType (x : FilterType) (w : World) : World :=
  mkWorld (tasksModel w) (filterModel w) (boardComponent w) (taskListComponent w)
    (loadingComponent w) (noTaskComponent w) (sortComponent w) (loadMoreButtonComponent w)
    (renderedTaskCount w) (taskPresenter w) (taskNewPresenter w) (currentSortType w) x
    (isLoading w) (calls w).
Definition set_isLoading (x : bool) (w : World) : World :=
  mkWorld (tasksModel w) (filterModel w) (boardComponent w) (taskListComponent w)
    (loadingComponent w) (noTaskComponent w) (sortComponent w) (loadMoreButtonComponent w)
    (renderedTaskCount w) (taskPresenter w) (taskNewPresenter w) (currentSortType w)
    (filterType w) x (calls w).
Definition record_call (e : Event) (w : World) : World :=
  mkWorld (tasksModel w) (filterModel w) (boardComponent w) (taskListComponent w)
    (loadingComponent w) (noTaskComponent w) (sortComponent w) (loadMoreButtonComponent w)
    (renderedTaskCount w) (taskPresenter w) (taskNewPresenter w) (currentSortType w)
    (filterType w) (isLoading w) (calls w ++ [e]).

(** The presenter as its field initialisers and constructor leave it, over
    given models: nothing mounted, the first page size, no item presenter,
    the creation presenter built but not shown, still loading. *)
Definition new_BoardPresenter (collection : list Task) (category : FilterType) : World :=
  mkWorld collection category false false false None None false TASK_COUNT_PER_STEP
    ∅ Inactive DEFAULT ALL true [].

(** ** Completions

    A method either returns or throws; [TypeError] is what calling a method
    on [undefined] throws, [Rejection] what awaiting a rejected model
    operation throws. *)
Inductive JsError := TypeError | Rejection.

Inductive Completion (A : Type) :=
  | Returns (a : A)
  | Throws (e : JsError).
Arguments Returns {A} a.
Arguments Throws {A} e.

Definition Js (A : Type) : Type := World → Completion A * World.

#[global] Instance Js_ret : MRet Js := λ A a w, (Returns a, w).
#[global] Instance Js_bind : MBind Js := λ A B k m w,
  match m w with
  | (Returns a, w') => k a w'
  | (Throws e, w') => (Throws e, w')
  end.

Definition throw {A : Type} (e : JsError) : Js A := λ w, (Throws e, w).

(** [try { body } catch (err) { handler }] *)
Definition try_catch {A : Type} (body : Js A) (handler : Js A) : Js A := λ w,
  match body w with
  | (Throws _, w') => handler w'
  | r => r
  end.

(** A statement that cannot throw. *)
Definition run (f : World → World) : Js unit := λ w, (Returns tt, f w).

(** [this.#taskPresenter.get(key).method()]: a [TypeError] when the map has
    no presenter under the key. *)
Definition on_presenter (key : TaskId) (method : TaskPresenter → TaskPresenter) : Js unit := λ w,
  match taskPresenter w !! key with
  | Some p => (Returns tt, set_taskPresenter (<[key := method p]> (taskPresenter w)) w)
  | None => (Throws TypeError, w)
  end.

(** ** Instances of the missing helpers *)

(** Modelled from the spec: the comparators [sortTaskUp] and [sortTaskDown] of
    [utils/task.js] are missing.  A task without due date is the greatest in
    both directions, two such tasks are equal, and two dated tasks compare by
    their dates, ascending or descending. *)
Definition dateAscending (taskA taskB : Task) : Z :=
  match dueDate taskA, dueDate taskB with
  | None, None => 0
  | None, Some _ => 1
  | Some _, None => -1
  | Some a, Some b => a - b
  end.

Definition dateDescending (taskA taskB : Task) : Z :=
  match dueDate taskA, dueDate taskB with
  | None, None => 0
  | None, Some _ => 1
  | Some _, None => -1
  | Some a, Some b => b - a
  end.

(** Modelled from the spec: the predicates of [utils/filter.js] are missing;
    the specification names the categories and leaves their predicates to the
    filter module.  This table reads each name literally, at a clock [now],
    and serves as the instance of the scenarios. *)
Definition categoryPredicate (now : Z) (category : FilterType) (task : Task) : bool :=
  match category with
  | ALL => true
  | FAVORITES => isFavorite task
  | REPEATING => existsb snd (repeating task)
  | OVERDUE => match dueDate task with Some d => (d <? now)%Z | None => false end
  | ARCHIVE => isArchive task
  end.

(** A task of the scenarios: only the id, the due date and the favourite flag
    vary. *)
Definition sampleTask (i : TaskId) (due : option Z) (favorite : bool) : Task :=
  mkTask i "task" due [] "black" false favorite.

(** The collection of the scenarios with three tasks, and one with ten. *)
Definition sampleCollection : list Task :=
  [sampleTask 1 (Some 30%Z) false; sampleTask 2 None true; sampleTask 3 (Some 10%Z) false].

Definition tenTasks : list Task :=
  (λ i, sampleTask i None false) <$> seq 1 10.

Definition hasDueDate (task : Task) : bool :=
  match dueDate task with Some _ => true | None => false end.

(** The sort key of a task is its due date; [sameKey k] holds of the tasks
    with key [k]. *)
Definition sameKey (k : option Z) (task : Task) : bool :=
  bool_decide (dueDate task = k).

(** ** The board presenter *)

Section BoardPresenter.
(** [utils/filter.js] and [utils/task.js] are not part of the sources: the
    predicate of each filter category and the two date comparators are
    parameters. *)
Variable filterPredicate : FilterType → Task → bool.
Variables sortTaskUp sortTaskDown : Task → Task → Z.

(** Modelled from the spec: the table [filter] of [utils/filter.js] is
    missing; the entry of a category selects, in collection order, the
    tasks that satisfy the category's predicate. *)
Definition filterTable (category : FilterType) (collection : list Task) : list Task :=
  List.filter (filterPredicate category) collection.

(** [get tasks()]: the value and the presenter after the getter has copied
    the model's category into [#filterType]. *)
Definition tasks (w : World) : list Task * World :=
  let w := set_filterType (filterModel w) w in
  let filteredTasks := filterTable (filterType w) (tasksModel w) in
  (match currentSortType w with
   | DATE_UP => array_sort sortTaskUp filteredTasks
   | DATE_DOWN => array_sort sortTaskDown filteredTasks
   | DEFAULT => filteredTasks
   end, w).

Definition renderSort (w : World) : World :=
  set_sortComponent (Some (currentSortType w)) w.

Definition renderTask (w : World) (task : Task) : World :=
  set_taskPresenter (<[id task := presenter_init task]> (taskPresenter w)) w.

Definition renderTasks (ts : list Task) (w : World) : World :=
  foldl renderTask w ts.

Definition renderLoading (w : World) : World := set_loadingComponent true w.

Definition renderNoTasks (w : World) : World :=
  set_noTaskComponent (Some (filterType w)) w.

Definition renderLoadMoreButton (w : World) : World :=
  set_loadMoreButtonComponent true w.

Definition clearBoard (resetRenderedTaskCount resetSortType : bool) (w : World) : World :=
  let '(ts, w) := tasks w in
  let taskCount := length ts in
  let w := set_taskNewPresenter Inactive w in
  let w := set_taskPresenter ∅ w in
  let w := set_sortComponent None w in
  let w := set_loadingComponent false w in
  let w := set_loadMoreButtonComponent false w in
  let w := set_noTaskComponent None w in
  let w :=
    if resetRenderedTaskCount then set_renderedTaskCount TASK_COUNT_PER_STEP w
    else set_renderedTaskCount (Nat.min taskCount (renderedTaskCount w)) w in
  if resetSortType then set_currentSortType DEFAULT w else w.

Definition renderBoard (w : World) : World :=
  let w := set_boardComponent true w in
  if isLoading w then renderLoading w
  else
    let '(ts, w) := tasks w in
    let taskCount := length ts in
    if (taskCount =? 0) then renderNoTasks w
    else
      let w := renderSort w in
      let w := set_taskListComponent true w in
      let w := renderTasks (slice 0 (Nat.min taskCount (renderedTaskCount w)) ts) w in
      if (renderedTaskCount w <? taskCount) then renderLoadMoreButton w else w.

Definition init (w : World) : World := renderBoard w.

Definition handleLoadMoreButtonClick (w : World) : World :=
  let '(ts, w) := tasks w in
  let taskCount := length ts in
  let newRenderedTaskCount := Nat.min taskCount (renderedTaskCount w + TASK_COUNT_PER_STEP) in
  let '(ts, w) := tasks w in
  let revealed := slice (renderedTaskCount w) newRenderedTaskCount ts in
  let w := renderTasks revealed w in
  let w := set_renderedTaskCount newRenderedTaskCount w in
  if (taskCount <=? renderedTaskCount w) then set_loadMoreButtonComponent false w else w.

Definition handleModeChange (w : World) : World :=
  let w := set_taskNewPresenter Inactive w in
  set_taskPresenter (resetView <$> taskPresenter w) w.

Definition handleModelEvent (updateType : UpdateType) (data : option Task) : Js unit :=
  match updateType with
  | PATCH =>
      match data with
      | Some data => on_presenter (id data) (λ _, presenter_init data)
      | None => throw TypeError
      end
  | MINOR => run (λ w, renderBoard (clearBoard false false w))
  | MAJOR => run (λ w, renderBoard (clearBoard true true w))
  | INIT =>
      run (λ w, renderBoard (set_loadingComponent false (set_isLoading false w)))
  end.

Definition handleSortTypeChange (sortType : SortType) (w : World) : World :=
  if decide (currentSortType w = sortType) then w
  else
    let w := set_currentSortType sortType w in
    renderBoard (clearBoard true false w).

(** *** The [await] of a routed action

    [#handleViewAction] is an async function.  It runs up to its [await];
    while the model operation is pending the event loop handles other
    events; when the operation settles, the function is resumed in the state
    the presenter then is in.  [handleViewAction_call] is the part up to the
    suspension, [handleViewAction_settle] the part from the settlement on,
    and the two are run on different states. *)

(** [this.#tasksModel.updateTask / addTask / deleteTask (updateType, update)]:
    the call of the operation, which is recorded. *)
Definition model_request (actionType : UserAction) (updateType : UpdateType)
    (update : Task) : Js unit :=
  run (record_call (ModelCall actionType updateType update)).

(** The settlement of the awaited operation: a rejection is thrown at the
    [await]; on success the model holds the new collection and, before the
    promise resolves, has called the presenter's observer.  An exception of
    the observer rejects the promise as well. *)
Definition model_settles (updateType : UpdateType) (reply : ModelReply) : Js unit :=
  match reply with
  | Rejects => throw Rejection
  | Resolves collection payload =>
      run (set_tasksModel collection) ;; handleModelEvent updateType payload
  end.

(** [#handleViewAction] up to its [await]. *)
Definition handleViewAction_call (actionType : UserAction) (updateType : UpdateType)
    (update : Task) : Js unit :=
  run (record_call Block) ;;
  match actionType with
  | UPDATE_TASK =>
      on_presenter (id update) setSaving ;;
      model_request UPDATE_TASK updateType update
  | ADD_TASK =>
      run (set_taskNewPresenter CreationSaving) ;;
      model_request ADD_TASK updateType update
  | DELETE_TASK =>
      on_presenter (id update) setDeleting ;;
      model_request DELETE_TASK updateType update
  end.

(** [#handleViewAction] from the settlement of the awaited operation on: the
    rest of the [try], the [catch], and [unblock()]. *)
Definition handleViewAction_settle (actionType : UserAction) (updateType : UpdateType)
    (update : Task) (reply : ModelReply) : Js unit :=
  match actionType with
  | UPDATE_TASK =>
      try_catch (model_settles updateType reply)
                (on_presenter (id update) setAborting)
  | ADD_TASK =>
      try_catch (model_settles updateType reply)
                (run (set_taskNewPresenter CreationAborting))
  | DELETE_TASK =>
      try_catch (model_settles updateType reply)
                (on_presenter (id update) setAborting)
  end ;;
  run (record_call Unblock).

(** The operation when it settles before any other event is handled. *)
Definition model_call (actionType : UserAction) (updateType : UpdateType) (update : Task)
    (reply : ModelReply) : Js unit :=
  model_request actionType updateType update ;; model_settles updateType reply.

(** [#handleViewAction] as written, run without an event between the call
    and the settlement of the operation: [handleViewAction_call] followed at
    once by [handleViewAction_settle] ([handleViewAction_uninterrupted]). *)
Definition handleViewAction (actionType : UserAction) (updateType : UpdateType)
    (update : Task) (reply : ModelReply) : Js unit :=
  run (record_call Block) ;;
  match actionType with
  | UPDATE_TASK =>
      on_presenter (id update) setSaving ;;
      try_catch (model_call UPDATE_TASK updateType update reply)
                (on_presenter (id update) setAborting)
  | ADD_TASK =>
      run (set_taskNewPresenter CreationSaving) ;;
      try_catch (model_call ADD_TASK updateType update reply)
                (run (set_taskNewPresenter CreationAborting))
  | DELETE_TASK =>
      on_presenter (id update) setDeleting ;;
      try_catch (model_call DELETE_TASK updateType update reply)
                (on_presenter (id update) setAborting)
  end ;;
  run (record_call Unblock).

(** Modelled from the spec: the filter model is not part of the sources;
    [setFilter] stores the category and notifies the observers, the board
    presenter among them, with the update kind and the category (which is
    no task). *)
Definition filterModel_setFilter (updateType : UpdateType) (category : FilterType) : Js unit :=
  run (record_call (SetFilter updateType category)) ;;
  run (set_filterModel category) ;;
  handleModelEvent updateType None.

Definition createTask : Js unit :=
  run (set_currentSortType DEFAULT) ;;
  filterModel_setFilter MAJOR ALL ;;
  run (λ w, set_taskNewPresenter (creation_init (taskNewPresenter w)) w).


(** ** Reachable states

    Modelled from the spec: what the update kinds promise about the
    collection the tasks model holds when it notifies.  A Patch changes one
    item in place and leaves the derived sequence as long as it was; Init is
    the completion of the initial load, so it arrives while the presenter is
    still loading; Minor and Major promise nothing. *)
Definition honours_kind (updateType : UpdateType) (w : World) (collection : list Task) : Prop :=
  match updateType with
  | PATCH =>
      length (filterTable (filterModel w) collection)
      = length (filterTable (filterModel w) (tasksModel w))
  | INIT => isLoading w = true
  | MINOR | MAJOR => True
  end.

Definition honours_reply (updateType : UpdateType) (w : World) (reply : ModelReply) : Prop :=
  match reply with
  | Rejects => True
  | Resolves collection _ => honours_kind updateType w collection
  end.

(** One event of the event loop: a notification of the tasks model after it
    changed its collection, a filter change (always Major), a click on a
    mounted load-more button or sort control, a mode change of an item
    presenter, a routed user action up to its [await], the settlement of a
    model operation and the rest of its action, or the opening of the
    creation form.  Any event may be handled between the call of an action
    and its settlement; which operations are pending is not recorded, so a
    settlement is admitted in every state. *)
Inductive step : World → World → Prop :=
  | step_notify w updateType collection data o w' :
      honours_kind updateType w collection →
      handleModelEvent updateType data (set_tasksModel collection w) = (o, w') →
      step w w'
  | step_setFilter w category o w' :
      filterModel_setFilter MAJOR category w = (o, w') →
      step w w'
  | step_loadMore w :
      loadMoreButtonComponent w = true →
      step w (handleLoadMoreButtonClick w)
  | step_sortTypeChange w sortType :
      is_Some (sortComponent w) →
      step w (handleSortTypeChange sortType w)
  | step_modeChange w :
      step w (handleModeChange w)
  | step_viewAction_call w actionType updateType update o w' :
      handleViewAction_call actionType updateType update w = (o, w') →
      step w w'
  | step_viewAction_settle w actionType updateType update reply o w' :
      honours_reply updateType w reply →
      handleViewAction_settle actionType updateType update reply w = (o, w') →
      step w w'
  | step_createTask w o w' :
      createTask w = (o, w') →
      step w w'.

(** The states the presenter reaches from [init] over the given models. *)
Definition reachable (collection : list Task) (category : FilterType) (w : World) : Prop :=
  rtc step (init (new_BoardPresenter collection category)) w.

(** Two states that agree on everything pagination reads. *)
Definition same_page (w w' : World) : Prop :=
  tasksModel w = tasksModel w' ∧ filterModel w = filterModel w'
  ∧ renderedTaskCount w = renderedTaskCount w'
  ∧ isLoading w = isLoading w'
  ∧ loadMoreButtonComponent w = loadMoreButtonComponent w'
  ∧ sortComponent w = sortComponent w'.

(** What pagination maintains: the count stays within the larger of the page
    size and the derived length, and while loading the count is at most one
    page and neither the load-more button nor the sort control is mounted. *)
Definition page_invariant (w : World) : Prop :=
  renderedTaskCount w ≤ TASK_COUNT_PER_STEP `max` length (tasks w).1
  ∧ (isLoading w = true →
     renderedTaskCount w ≤ TASK_COUNT_PER_STEP
     ∧ loadMoreButtonComponent w = false ∧ sortComponent w = None).

(** Two states that agree on everything but the view states of the item
    presenters, the creation form and the recorded calls. *)
Definition same_board (w w' : World) : Prop :=
  tasksModel w = tasksModel w' ∧ filterModel w = filterModel w'
  ∧ boardComponent w = boardComponent w'
  ∧ taskListComponent w = taskListComponent w'
  ∧ loadingComponent w = loadingComponent w'
  ∧ noTaskComponent w = noTaskComponent w'
  ∧ sortComponent w = sortComponent w'
  ∧ loadMoreButtonComponent w = loadMoreButtonComponent w'
  ∧ renderedTaskCount w = renderedTaskCount w'
  ∧ dom (taskPresenter w) = dom (taskPresenter w')
  ∧ currentSortType w = currentSortType w'
  ∧ filterType w = filterType w'
  ∧ isLoading w = isLoading w'.

(** What the board shows, read off [#clearBoard] and [#renderBoard]: the
    loading indicator is mounted exactly while loading and the item
    presenters never outnumber the rendered count; while loading nothing
    else is mounted; once loaded, the load-more button is mounted exactly
    when tasks are hidden, the sort control exactly when the derived
    sequence is not empty (showing the current sort type), and the
    placeholder exactly when it is empty (naming the active category). *)
Definition board_invariant (w : World) : Prop :=
  loadingComponent w = isLoading w
  ∧ size (taskPresenter w) ≤ renderedTaskCount w
  ∧ if isLoading w then
      taskPresenter w = ∅ ∧ noTaskComponent w = None
      ∧ sortComponent w = None ∧ loadMoreButtonComponent w = false
    else
      boardComponent w = true
      ∧ filterType w = filterModel w
      ∧ loadMoreButtonComponent w = (renderedTaskCount w <? length (tasks w).1)
      ∧ sortComponent w
        = (if length (tasks w).1 =? 0 then None else Some (currentSortType w))
      ∧ noTaskComponent w
        = (if length (tasks w).1 =? 0 then Some (filterModel w) else None)
      ∧ (length (tasks w).1 = 0 → taskPresenter w = ∅).

(** The rendered window: the item presenters are the ones [#renderTasks]
    makes, starting from no presenter, for the first min(length, rendered
    count) tasks of the derived sequence, as [#renderBoard] slices them. *)
Definition rendered_window (w : World) : Prop :=
  let ts := (tasks w).1 in
  taskPresenter w
  = taskPresenter
      (renderTasks (slice 0 (Nat.min (length ts) (renderedTaskCount w)) ts)
         (set_taskPresenter ∅ w)).

(** ** Facts about [Array.prototype.sort] *)

Section ArraySortFacts.
Context {A : Type} (cmp : A → A → Z).

Lemma sort_insert_perm (x : A) (l : list A) : sort_insert cmp x l ≡ₚ x :: l.
Proof.
  induction l as [|y l IH]; simpl; [done|].
  destruct (0 <? cmp x y)%Z; [|done].
  rewrite IH. apply perm_swap.
Qed.

Lemma array_sort_perm (l : list A) : array_sort cmp l ≡ₚ l.
Proof.
  induction l as [|x l IH]; simpl; [done|].
  fold (array_sort cmp l). by rewrite sort_insert_perm, IH.
Qed.

Lemma array_sort_length (l : list A) : length (array_sort cmp l) = length l.
Proof. apply Permutation_length, array_sort_perm. Qed.

(** Inserting an element outside a class leaves the class as it was. *)
Lemma filter_sort_insert_out (P : A → bool) (x : A) (l : list A) :
  P x = false → List.filter P (sort_insert cmp x l) = List.filter P l.
Proof.
  intros Hx. induction l as [|y l IH]; simpl.
  - by rewrite Hx.
  - destruct (0 <? cmp x y)%Z; simpl.
    + by rewrite IH.
    + by rewrite Hx.
Qed.

(** An element that the comparator never puts behind a member of its class
    is inserted in front of the class. *)
Lemma filter_sort_insert_in (P : A → bool) (x : A) (l : list A) :
  P x = true →
  (∀ y, y ∈ l → P y = true → (cmp x y <= 0)%Z) →
  List.filter P (sort_insert cmp x l) = x :: List.filter P l.
Proof.
  intros Hx. induction l as [|y l IH]; intros Hle; simpl.
  - by rewrite Hx.
  - destruct (0 <? cmp x y)%Z eqn:Hlt; simpl.
    + destruct (P y) eqn:Hy.
      * apply Z.ltb_lt in Hlt.
        specialize (Hle y (list_elem_of_here _ _) Hy). lia.
      * apply IH. intros z Hz. apply Hle. by apply list_elem_of_further.
    + by rewrite Hx.
Qed.

(** Stability: a class of elements that the comparator does not separate
    keeps its input order. *)
Lemma array_sort_stable (P : A → bool) (l : list A) :
  (∀ x y, P x = true → P y = true → (cmp x y <= 0)%Z) →
  List.filter P (array_sort cmp l) = List.filter P l.
Proof.
  intros Hclass. induction l as [|x l IH]; simpl; [done|].
  fold (array_sort cmp l). destruct (P x) eqn:Hx.
  - rewrite filter_sort_insert_in, IH; [done..|]. intros y _ Hy. by apply Hclass.
  - by rewrite filter_sort_insert_out, IH.
Qed.

Section Consistent.
(** A consistent comparator: of two elements one is not after the other, and
    not being after is transitive. *)
Hypothesis cmp_total : ∀ x y, (0 < cmp x y)%Z → (cmp y x <= 0)%Z.
Hypothesis cmp_trans : ∀ x y z, (cmp x y <= 0)%Z → (cmp y z <= 0)%Z → (cmp x z <= 0)%Z.

Lemma sort_insert_sorted (x : A) (l : list A) :
  StronglySorted (λ a b, (cmp a b <= 0)%Z) l →
  StronglySorted (λ a b, (cmp a b <= 0)%Z) (sort_insert cmp x l).
Proof.
  induction 1 as [|y l Hl IH Hy]; simpl.
  - by repeat constructor.
  - destruct (0 <? cmp x y)%Z eqn:Hlt.
    + constructor; [done|].
      rewrite sort_insert_perm. constructor; [|done].
      apply cmp_total. by apply Z.ltb_lt.
    + apply Z.ltb_ge in Hlt. constructor; [by constructor|].
      constructor; [done|].
      eapply Forall_impl; [exact Hy|]. intros z Hz. by eapply cmp_trans.
Qed.

Lemma array_sort_sorted (l : list A) :
  StronglySorted (λ a b, (cmp a b <= 0)%Z) (array_sort cmp l).
Proof.
  induction l as [|x l IH]; simpl; [constructor|].
  by apply sort_insert_sorted.
Qed.
Lemma cmp_refl (x : A) : (cmp x x <= 0)%Z.
Proof.
  destruct (Z.lt_ge_cases 0 (cmp x x)) as [Hlt|Hge]; [|lia]. by apply cmp_total.
Qed.

(** Two sorted lists that list every class of equivalent elements in the
    same order are equal: the sorted, stable arrangement of a list is
    unique, so any stable sort computes what [array_sort] computes. *)
Lemma stable_sorted_unique (l1 l2 : list A) :
  StronglySorted (λ a b, (cmp a b <= 0)%Z) l1 →
  StronglySorted (λ a b, (cmp a b <= 0)%Z) l2 →
  (∀ x, List.filter (λ y, (cmp x y <=? 0)%Z && (cmp y x <=? 0)%Z) l1
        = List.filter (λ y, (cmp x y <=? 0)%Z && (cmp y x <=? 0)%Z) l2) →
  l1 = l2.
Proof.
  intros Hs1. revert l2.
  induction Hs1 as [|a l1 _ IH Ha]; intros l2 Hs2 Hclass.
  - destruct l2 as [|b l2]; [done|]. specialize (Hclass b). simpl in Hclass.
    pose proof (cmp_refl b) as Hb. apply Z.leb_le in Hb. by rewrite Hb in Hclass.
  - pose proof (cmp_refl a) as Haa. apply Z.leb_le in Haa.
    destruct Hs2 as [|b l2 Hs2 Hb].
    { specialize (Hclass a). simpl in Hclass. by rewrite Haa in Hclass. }
    pose proof (cmp_refl b) as Hbb. apply Z.leb_le in Hbb.
    assert (Hab : a = b).
    { pose proof (Hclass a) as Hca. simpl in Hca. rewrite Haa in Hca. simpl in Hca.
      destruct ((cmp a b <=? 0)%Z && (cmp b a <=? 0)%Z) eqn:Heqv; [congruence|].
      exfalso.
      assert (Hin2 : a ∈ l2).
      { apply list_elem_of_In.
        eapply (proj1 (filter_In _ a l2)). rewrite <- Hca. by left. }
      pose proof (Hclass b) as Hcb. simpl in Hcb. rewrite Hbb in Hcb. simpl in Hcb.
      rewrite (andb_comm (cmp b a <=? 0)%Z) in Hcb. rewrite Heqv in Hcb.
      assert (Hin1 : b ∈ l1).
      { apply list_elem_of_In.
        eapply (proj1 (filter_In _ b l1)). rewrite Hcb. by left. }
      rewrite Forall_forall in Ha, Hb.
      specialize (Ha b Hin1). specialize (Hb a Hin2).
      apply Z.leb_le in Ha, Hb. by rewrite Ha, Hb in Heqv. }
    subst b. f_equal. apply IH; [done|]. intros x.
    specialize (Hclass x). simpl in Hclass.
    destruct ((cmp x a <=? 0)%Z && (cmp a x <=? 0)%Z); congruence.
Qed.

Lemma array_sort_canonical (l l' : list A) :
  StronglySorted (λ a b, (cmp a b <= 0)%Z) l' →
  (∀ x, List.filter (λ y, (cmp x y <=? 0)%Z && (cmp y x <=? 0)%Z) l'
        = List.filter (λ y, (cmp x y <=? 0)%Z && (cmp y x <=? 0)%Z) l) →
  l' = array_sort cmp l.
Proof.
  intros Hsorted Hstable.
  apply stable_sorted_unique; [done|apply array_sort_sorted|].
  intros x. rewrite Hstable. symmetry. apply array_sort_stable.
  intros y z Hy Hz.
  apply andb_true_iff in Hy as [_ Hy], Hz as [Hz _].
  apply Z.leb_le in Hy, Hz. by eapply cmp_trans.
Qed.
End Consistent.
End ArraySortFacts.

(** ** The derived sequence *)

Lemma filter_sublist {A : Type} (P : A → bool) (l : list A) :
  List.filter P l `sublist_of` l.
Proof.
  induction l as [|x l IH]; simpl; [done|].
  destruct (P x); by constructor.
Qed.

Lemma tasks_world (w : World) : (tasks w).2 = set_filterType (filterModel w) w.
Proof. done. Qed.

Lemma tasks_perm (w : World) :
  (tasks w).1 ≡ₚ filterTable (filterModel w) (tasksModel w).
Proof.
  unfold tasks; simpl. destruct (currentSortType w); [done|..]; apply array_sort_perm.
Qed.

Lemma tasks_length (w : World) :
  length (tasks w).1 = length (filterTable (filterModel w) (tasksModel w)).
Proof. apply Permutation_length, tasks_perm. Qed.

(** The getter reads the two models and the sort type, nothing else. *)
Lemma tasks_ext (w w' : World) :
  tasksModel w = tasksModel w' → filterModel w = filterModel w' →
  currentSortType w = currentSortType w' → (tasks w).1 = (tasks w').1.
Proof. unfold tasks; simpl. by intros -> -> ->. Qed.

(** C1: the derived sequence is the collection filtered by the predicate of
    the model's active category and then arranged by the sort type; DEFAULT
    keeps the filtered sequence, which lists in collection order exactly the
    tasks that satisfy the predicate, and the date sorts only permute it. *)
Theorem tasks_filter_then_sort (w : World) :
  (tasks w).1 =
    match currentSortType w with
    | DEFAULT => List.filter (filterPredicate (filterModel w)) (tasksModel w)
    | DATE_UP =>
        array_sort sortTaskUp (List.filter (filterPredicate (filterModel w)) (tasksModel w))
    | DATE_DOWN =>
        array_sort sortTaskDown (List.filter (filterPredicate (filterModel w)) (tasksModel w))
    end
  ∧ (∀ t, t ∈ List.filter (filterPredicate (filterModel w)) (tasksModel w)
          ↔ t ∈ tasksModel w ∧ filterPredicate (filterModel w) t = true)
  ∧ List.filter (filterPredicate (filterModel w)) (tasksModel w) `sublist_of` tasksModel w
  ∧ (∀ t, t ∈ (tasks w).1 ↔ t ∈ tasksModel w ∧ filterPredicate (filterModel w) t = true)
  ∧ (tasks w).1 ≡ₚ List.filter (filterPredicate (filterModel w)) (tasksModel w).
Proof.
  assert (Hmem : ∀ t, t ∈ List.filter (filterPredicate (filterModel w)) (tasksModel w)
                      ↔ t ∈ tasksModel w ∧ filterPredicate (filterModel w) t = true).
  { intros t. rewrite !list_elem_of_In. apply filter_In. }
  split_and!.
  - unfold tasks, filterTable; simpl. by destruct (currentSortType w).
  - exact Hmem.
  - apply filter_sublist.
  - intros t. rewrite <- Hmem. by rewrite (tasks_perm w).
  - apply tasks_perm.
Qed.

(** ** Rendering item presenters *)

Lemma renderTasks_presenters (ts : list Task) (w : World) :
  renderTasks ts w =
    set_taskPresenter
      (foldl (λ m t, <[id t := presenter_init t]> m) (taskPresenter w) ts) w.
Proof.
  unfold renderTasks. revert w.
  induction ts as [|t ts IH]; intros w; simpl; [by destruct w|].
  by rewrite IH.
Qed.

Section PresenterMap.
Implicit Types (m : gmap TaskId TaskPresenter) (ts : list Task).

Lemma presenters_other ts m (k : TaskId) :
  k ∉ id <$> ts →
  foldl (λ m t, <[id t := presenter_init t]> m) m ts !! k = m !! k.
Proof.
  revert m. induction ts as [|t ts IH]; intros m Hk; simpl; [done|].
  rewrite fmap_cons, not_elem_of_cons in Hk. destruct Hk as [Hne Hk].
  rewrite IH by done. by rewrite lookup_insert_ne.
Qed.

Lemma presenters_some ts m (k : TaskId) :
  k ∈ id <$> ts →
  ∃ t, t ∈ ts ∧ id t = k
       ∧ foldl (λ m t, <[id t := presenter_init t]> m) m ts !! k = Some (presenter_init t).
Proof.
  revert m. induction ts as [|t ts IH]; intros m Hk; simpl.
  - by apply elem_of_nil in Hk.
  - destruct (decide (k ∈ id <$> ts)) as [Hin|Hout].
    + destruct (IH (<[id t:=presenter_init t]> m) Hin) as (t' & ? & ? & ?).
      exists t'. split_and!; [by right|done..].
    + rewrite fmap_cons, elem_of_cons in Hk. destruct Hk as [->|?]; [|done].
      exists t. split_and!; [by left|done|].
      rewrite presenters_other by done. apply lookup_insert_eq.
Qed.

Lemma presenters_fresh ts m (t : Task) :
  NoDup (id <$> ts) → t ∈ ts →
  foldl (λ m t, <[id t := presenter_init t]> m) m ts !! id t = Some (presenter_init t).
Proof.
  revert m. induction ts as [|t' ts IH]; intros m Hnd Ht; simpl.
  - by apply elem_of_nil in Ht.
  - rewrite fmap_cons, NoDup_cons in Hnd. destruct Hnd as [Hnew Hnd].
    apply elem_of_cons in Ht as [->|Ht]; [|by apply IH].
    rewrite presenters_other by done. apply lookup_insert_eq.
Qed.

Lemma presenters_dom ts m :
  dom (foldl (λ m t, <[id t := presenter_init t]> m) m ts) = dom m ∪ list_to_set (id <$> ts).
Proof.
  revert m. induction ts as [|t ts IH]; intros m; simpl.
  - by rewrite (right_id_L ∅ (∪)).
  - rewrite IH, dom_insert_L.
    by rewrite (comm_L (∪) {[id t]}), <- (assoc_L (∪)).
Qed.

Lemma presenters_size ts m :
  NoDup (id <$> ts) → (∀ t, t ∈ ts → m !! id t = None) →
  size (foldl (λ m t, <[id t := presenter_init t]> m) m ts) = size m + length ts.
Proof.
  revert m. induction ts as [|t ts IH]; intros m Hnd Hnew; simpl; [lia|].
  rewrite fmap_cons, NoDup_cons in Hnd. destruct Hnd as [Ht Hnd].
  rewrite IH; [|done|].
  - rewrite map_size_insert_None; [lia|]. apply Hnew. by left.
  - intros t' Ht'. rewrite lookup_insert_ne.
    + apply Hnew. by right.
    + intros Heq. apply Ht. rewrite Heq. by apply list_elem_of_fmap_2.
Qed.
End PresenterMap.

(** ** [#clearBoard] and [#renderBoard], field by field *)

Lemma clearBoard_fields (resetRenderedTaskCount resetSortType : bool) (w : World) :
  clearBoard resetRenderedTaskCount resetSortType w =
    mkWorld (tasksModel w) (filterModel w) (boardComponent w) (taskListComponent w)
      false None None false
      (if resetRenderedTaskCount then TASK_COUNT_PER_STEP
       else length (tasks w).1 `min` renderedTaskCount w)
      ∅ Inactive
      (if resetSortType then DEFAULT else currentSortType w)
      (filterModel w) (isLoading w) (calls w).
Proof. by destruct resetRenderedTaskCount, resetSortType. Qed.

Lemma renderBoard_loading (w : World) :
  isLoading w = true →
  renderBoard w = set_loadingComponent true (set_boardComponent true w).
Proof. unfold renderBoard; simpl. by intros ->. Qed.

Lemma renderBoard_loaded (w : World) :
  isLoading w = false →
  renderBoard w =
    let ts := (tasks w).1 in
    let shown := take (length ts `min` renderedTaskCount w) ts in
    mkWorld (tasksModel w) (filterModel w) true
      (if length ts =? 0 then taskListComponent w else true)
      (loadingComponent w)
      (if length ts =? 0 then Some (filterModel w) else noTaskComponent w)
      (if length ts =? 0 then sortComponent w else Some (currentSortType w))
      (if length ts =? 0 then loadMoreButtonComponent w
       else if renderedTaskCount w <? length ts then true else loadMoreButtonComponent w)
      (renderedTaskCount w)
      (foldl (λ m t, <[id t := presenter_init t]> m) (taskPresenter w) shown)
      (taskNewPresenter w) (currentSortType w) (filterModel w) false (calls w).
Proof.
  intros Hload. unfold renderBoard; simpl. rewrite Hload.
  set (ts := (tasks w).1).
  destruct (length ts =? 0) eqn:Hlen.
  - apply Nat.eqb_eq in Hlen. apply nil_length_inv in Hlen.
    subst ts. simpl in *. rewrite Hlen. simpl. by rewrite <- Hload.
  - subst ts. simpl in *. rewrite Hlen. rewrite renderTasks_presenters. simpl.
    unfold slice. rewrite Nat.sub_0_r, drop_0.
    destruct (renderedTaskCount w <? _); simpl; by rewrite <- Hload.
Qed.

(** Reads a [renderBoard] applied to a state cleared from [w] in both cases
    of the loading flag. *)
Ltac render_cases w :=
  let Hl := fresh "Hl" in
  destruct (isLoading w) eqn:Hl;
  [rewrite renderBoard_loading by done|rewrite renderBoard_loaded by done].

Lemma handleLoadMoreButtonClick_fields (w : World) :
  handleLoadMoreButtonClick w =
    let ts := (tasks w).1 in
    let newRenderedTaskCount :=
      length ts `min` (renderedTaskCount w + TASK_COUNT_PER_STEP) in
    mkWorld (tasksModel w) (filterModel w) (boardComponent w) (taskListComponent w)
      (loadingComponent w) (noTaskComponent w) (sortComponent w)
      (if length ts <=? newRenderedTaskCount then false else loadMoreButtonComponent w)
      newRenderedTaskCount
      (foldl (λ m t, <[id t := presenter_init t]> m) (taskPresenter w)
         (slice (renderedTaskCount w) newRenderedTaskCount ts))
      (taskNewPresenter w) (currentSortType w) (filterModel w) (isLoading w) (calls w).
Proof.
  unfold handleLoadMoreButtonClick; simpl. rewrite renderTasks_presenters; simpl.
  by destruct (_ <=? _).
Qed.

(** From here on the getter and the board operations are read through the
    lemmas above. *)
Arguments tasks : simpl never.
Arguments clearBoard : simpl never.
Arguments renderBoard : simpl never.
Arguments handleLoadMoreButtonClick : simpl never.

Lemma presenters_window (ts : list Task) (k : TaskId) (p : TaskPresenter) :
  foldl (λ m t, <[id t := presenter_init t]> m) (∅ : gmap TaskId TaskPresenter) ts !! k
    = Some p →
  ∃ t, t ∈ ts ∧ id t = k ∧ p = presenter_init t.
Proof.
  intros Hk. destruct (decide (k ∈ id <$> ts)) as [Hin|Hout].
  - destruct (presenters_some ts ∅ k Hin) as (t & ? & ? & Ht).
    exists t. split_and!; [done..|congruence].
  - rewrite presenters_other in Hk by done. by rewrite lookup_empty in Hk.
Qed.

(** ** Notifications *)

Lemma minor_reset_count (w : World) :
  renderedTaskCount (renderBoard (clearBoard false false w))
  = renderedTaskCount w `min` length (tasks w).1.
Proof.
  rewrite clearBoard_fields. render_cases w; simpl; lia.
Qed.

(** C6: a Minor notification clears the board (no item presenter, no sort
    control, no load-more button left), clamps the rendered count to the new
    derived length without ever raising it, keeps the sort type, and renders
    the board again: once loaded, the item presenters are fresh ones for the
    first [renderedTaskCount] tasks of the derived sequence. *)
Theorem minor_notification (w : World) (data : option Task) :
  let cleared := clearBoard false false w in
  let w' := renderBoard cleared in
  let shown := take (renderedTaskCount w') (tasks w).1 in
  handleModelEvent MINOR data w = (Returns tt, w')
  ∧ taskPresenter cleared = ∅
  ∧ sortComponent cleared = None
  ∧ loadMoreButtonComponent cleared = false
  ∧ renderedTaskCount cleared = renderedTaskCount w `min` length (tasks w).1
  ∧ renderedTaskCount w' = renderedTaskCount w `min` length (tasks w).1
  ∧ renderedTaskCount w' ≤ renderedTaskCount w
  ∧ currentSortType w' = currentSortType w
  ∧ (isLoading w = false →
     dom (taskPresenter w') = list_to_set (id <$> shown)
     ∧ (∀ k p, taskPresenter w' !! k = Some p →
               ∃ t, t ∈ shown ∧ id t = k ∧ p = presenter_init t)
     ∧ (∀ t, NoDup (id <$> shown) → t ∈ shown →
             taskPresenter w' !! id t = Some (presenter_init t))).
Proof.
  intros cleared w' shown.
  assert (Hc : cleared = clearBoard false false w) by done.
  rewrite clearBoard_fields in Hc.
  assert (Hrc : renderedTaskCount w' = renderedTaskCount w `min` length (tasks w).1)
    by apply minor_reset_count.
  split_and!; try (by rewrite Hc); try done.
  - rewrite Hc; simpl. lia.
  - lia.
  - subst w'. destruct (isLoading w) eqn:Hl.
    + rewrite renderBoard_loading by (by rewrite Hc). by rewrite Hc.
    + rewrite renderBoard_loaded by (by rewrite Hc). by rewrite Hc.
  - intros Hl.
    assert (Hts : (tasks cleared).1 = (tasks w).1) by (by rewrite Hc).
    assert (Hmap : taskPresenter w'
              = foldl (λ m t, <[id t := presenter_init t]> m) ∅ shown).
    { subst shown. rewrite Hrc. subst w'.
      rewrite renderBoard_loaded by (by rewrite Hc). cbv zeta. rewrite Hts.
      rewrite Hc; simpl. f_equal. f_equal. lia. }
    rewrite Hmap. split_and!.
    + rewrite presenters_dom, dom_empty_L. by rewrite (left_id_L ∅ (∪)).
    + apply presenters_window.
    + intros t Hnd Ht. by apply presenters_fresh.
Qed.

(** C7: a click on the load-more button raises the rendered count by one
    step, bounded by the derived length; it adds fresh item presenters for
    the tasks at the newly revealed positions and touches no other, and it
    removes the button exactly when the count has reached the derived length.
    The scenario: with ten derived tasks of distinct ids, the first render
    after the initial load shows eight presenters and the button, and one
    click shows all ten and removes the button. *)
Theorem load_more_click (w : World) :
  let ts := (tasks w).1 in
  let w' := handleLoadMoreButtonClick w in
  let revealed := slice (renderedTaskCount w) (renderedTaskCount w') ts in
  renderedTaskCount w' = (renderedTaskCount w + TASK_COUNT_PER_STEP) `min` length ts
  ∧ (renderedTaskCount w ≤ length ts → renderedTaskCount w ≤ renderedTaskCount w')
  ∧ (∀ k, k ∉ id <$> revealed → taskPresenter w' !! k = taskPresenter w !! k)
  ∧ (∀ k, k ∈ id <$> revealed →
          ∃ t, t ∈ revealed ∧ id t = k ∧ taskPresenter w' !! k = Some (presenter_init t))
  ∧ (renderedTaskCount w' = length ts → loadMoreButtonComponent w' = false)
  ∧ (renderedTaskCount w' ≠ length ts →
     loadMoreButtonComponent w' = loadMoreButtonComponent w)
  ∧ (∀ collection category,
       let w0 := new_BoardPresenter collection category in
       let w1 := (handleModelEvent INIT None (init w0)).2 in
       let w2 := handleLoadMoreButtonClick w1 in
       length (tasks w0).1 = 10 → NoDup (id <$> (tasks w0).1) →
       renderedTaskCount w1 = 8 ∧ size (taskPresenter w1) = 8
       ∧ dom (taskPresenter w1) = list_to_set (id <$> take 8 (tasks w0).1)
       ∧ loadMoreButtonComponent w1 = true
       ∧ renderedTaskCount w2 = 10 ∧ size (taskPresenter w2) = 10
       ∧ dom (taskPresenter w2) = list_to_set (id <$> (tasks w0).1)
       ∧ loadMoreButtonComponent w2 = false).
Proof.
  intros ts w' revealed.
  assert (Hw' : w' = handleLoadMoreButtonClick w) by done.
  rewrite handleLoadMoreButtonClick_fields in Hw'. fold ts in Hw'.
  assert (Hrc : renderedTaskCount w'
                = (renderedTaskCount w + TASK_COUNT_PER_STEP) `min` length ts).
  { rewrite Hw'; simpl. lia. }
  assert (Hmap : taskPresenter w'
            = foldl (λ m t, <[id t := presenter_init t]> m) (taskPresenter w) revealed).
  { subst revealed. rewrite Hrc. rewrite Hw'; simpl. do 2 f_equal. lia. }
  split_and!.
  - done.
  - lia.
  - intros k Hk. rewrite Hmap. by apply presenters_other.
  - intros k Hk. rewrite Hmap. by apply presenters_some.
  - intros Hfull. rewrite Hw'; simpl.
    destruct (_ <=? _) eqn:Hle; [done|]. apply Nat.leb_gt in Hle. lia.
  - intros Hpart. rewrite Hw'; simpl.
    destruct (_ <=? _) eqn:Hle; [|done]. apply Nat.leb_le in Hle. lia.
  - clear. intros collection category w0 w1 w2 Hlen Hnd.
    set (ts := (tasks w0).1) in *.
    assert (Hw1 : w1 = renderBoard (set_loadingComponent false (set_isLoading false (init w0))))
      by done.
    rewrite renderBoard_loaded in Hw1 by done.
    assert (Hts1 : (tasks (set_loadingComponent false (set_isLoading false (init w0)))).1 = ts)
      by done.
    rewrite Hts1 in Hw1. simpl in Hw1. rewrite Hlen in Hw1. simpl in Hw1.
    assert (Hts : ts = take 8 ts ++ drop 8 ts) by (by rewrite take_drop).
    assert (Hnd8 : NoDup (id <$> take 8 ts)).
    { rewrite Hts, fmap_app in Hnd. by apply NoDup_app in Hnd as (? & _ & _). }
    assert (Hw2 : w2 = handleLoadMoreButtonClick w1) by done.
    rewrite handleLoadMoreButtonClick_fields in Hw2.
    assert (Hts2 : (tasks w1).1 = ts) by (by rewrite Hw1).
    rewrite Hts2 in Hw2. simpl in Hw2. rewrite Hlen in Hw2.
    rewrite Hw1 in Hw2. simpl in Hw2.
    unfold slice in Hw2. simpl in Hw2.
    rewrite <- foldl_app in Hw2.
    assert (Hall : take 8 ts ++ take 2 (drop 8 ts) = ts).
    { rewrite <- (take_drop 8 ts) at 3. f_equal. apply take_ge.
      rewrite length_drop. lia. }
    unfold TASK_COUNT_PER_STEP in *. rewrite Hall in Hw2.
    rewrite Hw2, Hw1; simpl.
    rewrite !presenters_dom, !dom_empty_L, !(left_id_L ∅ (∪)).
    rewrite !presenters_size by (done || intros; apply lookup_empty).
    rewrite map_size_empty, length_take, Hlen. done.
Qed.

(** Reduces the fields read from a state that is written out. *)
Ltac fields :=
  cbn [tasksModel filterModel boardComponent taskListComponent loadingComponent
       noTaskComponent sortComponent loadMoreButtonComponent renderedTaskCount
       taskPresenter taskNewPresenter currentSortType filterType isLoading calls
       set_tasksModel set_filterModel set_boardComponent set_taskListComponent
       set_loadingComponent set_noTaskComponent set_sortComponent
       set_loadMoreButtonComponent set_renderedTaskCount set_taskPresenter
       set_taskNewPresenter set_currentSortType set_filterType set_isLoading
       record_call].

Ltac fields_in H :=
  cbn [tasksModel filterModel boardComponent taskListComponent loadingComponent
       noTaskComponent sortComponent loadMoreButtonComponent renderedTaskCount
       taskPresenter taskNewPresenter currentSortType filterType isLoading calls
       set_tasksModel set_filterModel set_boardComponent set_taskListComponent
       set_loadingComponent set_noTaskComponent set_sortComponent
       set_loadMoreButtonComponent set_renderedTaskCount set_taskPresenter
       set_taskNewPresenter set_currentSortType set_filterType set_isLoading
       record_call] in H.

(** ** Running methods *)

Arguments handleModelEvent : simpl never.

Lemma bind_returns {A B : Type} (m : Js A) (k : A → Js B) (w w' : World) (a : A) :
  m w = (Returns a, w') → (m ≫= k) w = k a w'.
Proof. unfold mbind, Js_bind. by intros ->. Qed.

Lemma bind_throws {A B : Type} (m : Js A) (k : A → Js B) (w w' : World) (e : JsError) :
  m w = (Throws e, w') → (m ≫= k) w = (Throws e, w').
Proof. unfold mbind, Js_bind. by intros ->. Qed.

Lemma bind_run {B : Type} (f : World → World) (k : unit → Js B) (w : World) :
  (run f ≫= k) w = k tt (f w).
Proof. done. Qed.

Lemma try_catch_returns {A : Type} (body handler : Js A) (w w' : World) (a : A) :
  body w = (Returns a, w') → try_catch body handler w = (Returns a, w').
Proof. unfold try_catch. by intros ->. Qed.

Lemma try_catch_throws {A : Type} (body handler : Js A) (w w' : World) (e : JsError) :
  body w = (Throws e, w') → try_catch body handler w = handler w'.
Proof. unfold try_catch. by intros ->. Qed.

Lemma on_presenter_some (key : TaskId) (method : TaskPresenter → TaskPresenter)
    (w : World) (p : TaskPresenter) :
  taskPresenter w !! key = Some p →
  on_presenter key method w
    = (Returns tt, set_taskPresenter (<[key := method p]> (taskPresenter w)) w).
Proof. unfold on_presenter. by intros ->. Qed.

Lemma on_presenter_none (key : TaskId) (method : TaskPresenter → TaskPresenter) (w : World) :
  taskPresenter w !! key = None → on_presenter key method w = (Throws TypeError, w).
Proof. unfold on_presenter. by intros ->. Qed.

Lemma handleViewAction_missing (a : UserAction) (u : UpdateType) (t : Task)
    (reply : ModelReply) (w : World) :
  a ≠ ADD_TASK → taskPresenter w !! id t = None →
  handleViewAction a u t reply w = (Throws TypeError, record_call Block w).
Proof.
  intros Ha Hnone. unfold handleViewAction. rewrite bind_run.
  destruct a; [|done|].
  - erewrite bind_throws; [done|]. erewrite bind_throws; [done|].
    by apply on_presenter_none.
  - erewrite bind_throws; [done|]. erewrite bind_throws; [done|].
    by apply on_presenter_none.
Qed.

(** A notification leaves the recorded calls and both models alone, and a
    notification that throws leaves the whole state as it was. *)
Lemma handleModelEvent_frame (u : UpdateType) (data : option Task) (w : World)
    (o : Completion unit) (w' : World) :
  handleModelEvent u data w = (o, w') →
  calls w' = calls w ∧ tasksModel w' = tasksModel w ∧ filterModel w' = filterModel w
  ∧ (∀ e, o = Throws e → w' = w).
Proof.
  intros Hev. destruct u; unfold handleModelEvent, run in Hev.
  - destruct data as [d|]; [|by apply pair_equal_spec in Hev as [<- <-]].
    unfold on_presenter in Hev. destruct (_ !! _); by apply pair_equal_spec in Hev as [<- <-].
  - apply pair_equal_spec in Hev as [<- <-]. rewrite clearBoard_fields.
    render_cases w; done.
  - apply pair_equal_spec in Hev as [<- <-]. rewrite clearBoard_fields.
    render_cases w; done.
  - apply pair_equal_spec in Hev as [<- <-]. rewrite renderBoard_loaded by done. done.
Qed.






Lemma filterModel_setFilter_major (category : FilterType) (w : World) :
  filterModel_setFilter MAJOR category w
  = (Returns tt,
     renderBoard (clearBoard true true
       (set_filterModel category (record_call (SetFilter MAJOR category) w)))).
Proof. unfold filterModel_setFilter. by rewrite !bind_run. Qed.

Lemma createTask_run (w : World) :
  createTask w
  = (Returns tt,
     let w1 := renderBoard (clearBoard true true
                 (set_filterModel ALL (record_call (SetFilter MAJOR ALL)
                    (set_currentSortType DEFAULT w)))) in
     set_taskNewPresenter (creation_init (taskNewPresenter w1)) w1).
Proof.
  unfold createTask. rewrite bind_run.
  erewrite bind_returns; [|apply filterModel_setFilter_major]. done.
Qed.

(** ** States that show the same board *)

Lemma same_board_refl (w : World) : same_board w w.
Proof. by repeat split. Qed.

Lemma same_board_trans (w1 w2 w3 : World) :
  same_board w1 w2 → same_board w2 w3 → same_board w1 w3.
Proof.
  unfold same_board. intros H12 H23. destruct_and!. split_and!; congruence.
Qed.

Lemma same_board_page (w w' : World) : same_board w w' → same_page w w'.
Proof. unfold same_board, same_page. intros H. destruct_and!. by split_and!. Qed.

Lemma same_board_record_call (e : Event) (w : World) : same_board w (record_call e w).
Proof. by repeat split. Qed.

Lemma same_board_taskNewPresenter (x : CreationState) (w : World) :
  same_board w (set_taskNewPresenter x w).
Proof. by repeat split. Qed.

Lemma same_board_taskPresenter (m : gmap TaskId TaskPresenter) (w : World) :
  dom m = dom (taskPresenter w) → same_board w (set_taskPresenter m w).
Proof. intros Hdom. unfold same_board. fields. by split_and!. Qed.

Lemma dom_insert_twice (m : gmap TaskId TaskPresenter) (k : TaskId) (x y p : TaskPresenter) :
  m !! k = Some p → dom (<[k := y]> (<[k := x]> m)) = dom m.
Proof.
  intros Hk. rewrite insert_insert_eq. apply dom_insert_lookup_L. by eexists.
Qed.

(** ** Routed actions *)


(** C2 (as amended): an Update or Delete whose payload id has no item
    presenter makes no model call and changes nothing but the record of the
    [block()] call; it is not a silent no-op, though: a [TypeError] escapes
    right after [block()], nothing is logged and [unblock()] is not called. *)
Theorem stale_reference_throws (a : UserAction) (u : UpdateType) (t : Task)
    (reply : ModelReply) (w : World) :
  a ≠ ADD_TASK → taskPresenter w !! id t = None →
  handleViewAction a u t reply w = (Throws TypeError, record_call Block w)
  ∧ calls (record_call Block w) = calls w ++ [Block]
  ∧ tasksModel (record_call Block w) = tasksModel w
  ∧ taskPresenter (record_call Block w) = taskPresenter w
  ∧ taskNewPresenter (record_call Block w) = taskNewPresenter w.
Proof.
  intros Ha Hnone. split_and!; [|done..]. by apply handleViewAction_missing.
Qed.

(** ** Routed actions across the [await] *)

Lemma handleViewAction_uninterrupted (a : UserAction) (u : UpdateType) (t : Task)
    (reply : ModelReply) (w : World) :
  handleViewAction a u t reply w
  = (handleViewAction_call a u t ;; handleViewAction_settle a u t reply) w.
Proof.
  unfold handleViewAction, handleViewAction_call, handleViewAction_settle,
    model_call, model_request.
  unfold mbind, Js_bind, run, try_catch.
  destruct a;
    repeat match goal with
    | |- context [on_presenter ?k ?f ?x] =>
        destruct (on_presenter k f x) as [[[]|?] ?]
    | |- context [model_settles u reply ?x] =>
        destruct (model_settles u reply x) as [[[]|?] ?]
    end; reflexivity.
Qed.

Lemma handleViewAction_call_returns (a : UserAction) (u : UpdateType) (t : Task)
    (w : World) :
  a = ADD_TASK ∨ is_Some (taskPresenter w !! id t) →
  ∃ w1, handleViewAction_call a u t w = (Returns tt, w1)
    ∧ calls w1 = calls w ++ [Block; ModelCall a u t]
    ∧ same_board w w1
    ∧ (∀ k, k ≠ id t → taskPresenter w1 !! k = taskPresenter w !! k)
    ∧ match a with
      | ADD_TASK =>
          taskNewPresenter w1 = CreationSaving ∧ taskPresenter w1 = taskPresenter w
      | _ =>
          taskNewPresenter w1 = taskNewPresenter w
          ∧ ∃ p, taskPresenter w !! id t = Some p
                 ∧ taskPresenter w1 !! id t
                   = Some (mkTaskPresenter (presented p)
                             (if decide (a = UPDATE_TASK) then Saving else Deleting))
      end.
Proof.
  intros Hctl. unfold handleViewAction_call, model_request. rewrite bind_run.
  destruct a.
  - destruct Hctl as [|[p Hp]]; [done|].
    erewrite bind_returns; [|by apply on_presenter_some].
    eexists. split; [reflexivity|]. fields. split_and!.
    + by rewrite <- app_assoc.
    + eapply same_board_trans; [apply same_board_record_call|].
      eapply same_board_trans; [|apply same_board_record_call].
      apply same_board_taskPresenter. fields. apply dom_insert_lookup_L. by eexists.
    + intros k Hk. by rewrite lookup_insert_ne.
    + done.
    + exists p. split; [done|]. apply lookup_insert_eq.
  - rewrite bind_run. eexists. split; [reflexivity|]. fields. split_and!.
    + by rewrite <- app_assoc.
    + by repeat split.
    + done.
    + done.
    + done.
  - destruct Hctl as [|[p Hp]]; [done|].
    erewrite bind_returns; [|by apply on_presenter_some].
    eexists. split; [reflexivity|]. fields. split_and!.
    + by rewrite <- app_assoc.
    + eapply same_board_trans; [apply same_board_record_call|].
      eapply same_board_trans; [|apply same_board_record_call].
      apply same_board_taskPresenter. fields. apply dom_insert_lookup_L. by eexists.
    + intros k Hk. by rewrite lookup_insert_ne.
    + done.
    + exists p. split; [done|]. apply lookup_insert_eq.
Qed.

Lemma handleViewAction_call_throws (a : UserAction) (u : UpdateType) (t : Task)
    (w : World) :
  a ≠ ADD_TASK → taskPresenter w !! id t = None →
  handleViewAction_call a u t w = (Throws TypeError, record_call Block w).
Proof.
  intros Ha Hnone. unfold handleViewAction_call. rewrite bind_run.
  destruct a; [|done|]; (erewrite bind_throws; [done|]; by apply on_presenter_none).
Qed.

(** Up to its [await] an action changes only the view state of its
    controller and the recorded calls. *)
Lemma handleViewAction_call_board (a : UserAction) (u : UpdateType) (t : Task)
    (w : World) (o : Completion unit) (w' : World) :
  handleViewAction_call a u t w = (o, w') →
  same_board w w' ∧ ∃ more, calls w' = calls w ++ more.
Proof.
  intros Hcall.
  destruct (decide (a = ADD_TASK ∨ is_Some (taskPresenter w !! id t))) as [Hctl|Hno].
  - destruct (handleViewAction_call_returns a u t w Hctl) as (w1 & Hrun & Hcalls & Hsame & _).
    rewrite Hrun in Hcall. apply pair_equal_spec in Hcall as [_ <-].
    split; [done|]. by eexists.
  - rewrite handleViewAction_call_throws in Hcall.
    + apply pair_equal_spec in Hcall as [_ <-].
      split; [apply same_board_record_call|]. by eexists.
    + intros ->. apply Hno. by left.
    + destruct (taskPresenter w !! id t) eqn:Hp; [|done].
      exfalso. apply Hno. right. by eexists.
Qed.

Lemma model_settles_cases (u : UpdateType) (reply : ModelReply) (w : World)
    (o : Completion unit) (ws : World) :
  model_settles u reply w = (o, ws) →
  match reply with
  | Rejects => o = Throws Rejection ∧ ws = w
  | Resolves collection payload =>
      handleModelEvent u payload (set_tasksModel collection w) = (o, ws)
  end.
Proof.
  unfold model_settles. destruct reply as [|c payload].
  - unfold throw. by intros [= <- <-].
  - by rewrite bind_run.
Qed.

(** A failed settlement leaves the presenter as it was; the model holds its
    new collection when it was the observer that failed. *)
Lemma model_settles_failure (u : UpdateType) (reply : ModelReply) (w : World)
    (e : JsError) (ws : World) :
  model_settles u reply w = (Throws e, ws) →
  ws = match reply with
       | Rejects => w
       | Resolves collection _ => set_tasksModel collection w
       end.
Proof.
  intros Hset. apply model_settles_cases in Hset. destruct reply as [|c payload].
  - by destruct Hset.
  - destruct (handleModelEvent_frame _ _ _ _ _ Hset) as (_ & _ & _ & Hsame).
    by apply (Hsame e).
Qed.

Lemma handleViewAction_settle_success (a : UserAction) (u : UpdateType) (t : Task)
    (reply : ModelReply) (w ws : World) :
  model_settles u reply w = (Returns tt, ws) →
  handleViewAction_settle a u t reply w = (Returns tt, record_call Unblock ws).
Proof.
  intros Hset. unfold handleViewAction_settle.
  destruct a; (erewrite bind_returns; [|by apply try_catch_returns]); done.
Qed.

Lemma handleViewAction_settle_aborts (a : UserAction) (u : UpdateType) (t : Task)
    (reply : ModelReply) (w : World) (e : JsError) (ws : World) :
  model_settles u reply w = (Throws e, ws) →
  a = ADD_TASK ∨ is_Some (taskPresenter ws !! id t) →
  ∃ w', handleViewAction_settle a u t reply w = (Returns tt, w')
    ∧ calls w' = calls ws ++ [Unblock]
    ∧ same_board ws w'
    ∧ (∀ k, k ≠ id t → taskPresenter w' !! k = taskPresenter ws !! k)
    ∧ match a with
      | ADD_TASK =>
          taskNewPresenter w' = CreationAborting ∧ taskPresenter w' = taskPresenter ws
      | _ =>
          taskNewPresenter w' = taskNewPresenter ws
          ∧ ∃ p, taskPresenter ws !! id t = Some p
                 ∧ taskPresenter w' !! id t = Some (mkTaskPresenter (presented p) Aborting)
      end.
Proof.
  intros Hset Hctl. unfold handleViewAction_settle.
  destruct a.
  - destruct Hctl as [|[p Hp]]; [done|].
    erewrite bind_returns; cycle 1.
    { erewrite try_catch_throws; [|exact Hset]. by apply on_presenter_some. }
    eexists. split; [reflexivity|]. fields. split_and!; [done| | |done|].
    + eapply same_board_trans; [|apply same_board_record_call].
      apply same_board_taskPresenter. apply dom_insert_lookup_L. by eexists.
    + intros k Hk. by rewrite lookup_insert_ne.
    + exists p. split; [done|]. apply lookup_insert_eq.
  - erewrite bind_returns; cycle 1.
    { erewrite try_catch_throws; [|exact Hset]. reflexivity. }
    eexists. split; [reflexivity|]. fields. by split_and!.
  - destruct Hctl as [|[p Hp]]; [done|].
    erewrite bind_returns; cycle 1.
    { erewrite try_catch_throws; [|exact Hset]. by apply on_presenter_some. }
    eexists. split; [reflexivity|]. fields. split_and!; [done| | |done|].
    + eapply same_board_trans; [|apply same_board_record_call].
      apply same_board_taskPresenter. apply dom_insert_lookup_L. by eexists.
    + intros k Hk. by rewrite lookup_insert_ne.
    + exists p. split; [done|]. apply lookup_insert_eq.
Qed.

Lemma handleViewAction_settle_throws (a : UserAction) (u : UpdateType) (t : Task)
    (reply : ModelReply) (w : World) (e : JsError) (ws : World) :
  model_settles u reply w = (Throws e, ws) →
  a ≠ ADD_TASK → taskPresenter ws !! id t = None →
  handleViewAction_settle a u t reply w = (Throws TypeError, ws).
Proof.
  intros Hset Ha Hnone. unfold handleViewAction_settle.
  destruct a; [|done|];
    (erewrite bind_throws; [done|]; erewrite try_catch_throws; [|exact Hset];
     by apply on_presenter_none).
Qed.

(** From the settlement on an action changes, after what the settlement
    itself does, only the view state of its controller and the recorded
    calls. *)
Lemma handleViewAction_settle_board (a : UserAction) (u : UpdateType) (t : Task)
    (reply : ModelReply) (w : World) (o : Completion unit) (w' : World) :
  handleViewAction_settle a u t reply w = (o, w') →
  ∃ o2 ws, model_settles u reply w = (o2, ws) ∧ same_board ws w'
    ∧ ∃ more, calls w' = calls ws ++ more.
Proof.
  intros Hrun. destruct (model_settles u reply w) as [o2 ws] eqn:Hset.
  exists o2, ws. split; [done|]. destruct o2 as [[]|e].
  - rewrite (handleViewAction_settle_success a u t reply w ws Hset) in Hrun.
    apply pair_equal_spec in Hrun as [_ <-].
    split; [apply same_board_record_call|]. by eexists.
  - destruct (decide (a = ADD_TASK ∨ is_Some (taskPresenter ws !! id t))) as [Hctl|Hno].
    + destruct (handleViewAction_settle_aborts a u t reply w e ws Hset Hctl)
        as (w1 & Hrun1 & Hcalls & Hsame & _).
      rewrite Hrun1 in Hrun. apply pair_equal_spec in Hrun as [_ <-].
      split; [done|]. by eexists.
    + rewrite (handleViewAction_settle_throws a u t reply w e ws Hset) in Hrun.
      * apply pair_equal_spec in Hrun as [_ <-].
        split; [apply same_board_refl|]. exists []. by rewrite app_nil_r.
      * intros ->. apply Hno. by left.
      * destruct (taskPresenter ws !! id t) eqn:Hp; [|done].
        exfalso. apply Hno. right. by eexists.
Qed.

(** C8: [createTask] sets the sort type to DEFAULT and asks the filter model
    for ALL with a Major update before it initialises the creation form: in
    the state the form is initialised in, the sort type is DEFAULT, the
    model's category and the presenter's copy of it are ALL, and the form is
    not yet shown; after the call the form is shown over the same settings. *)
Theorem createTask_resets_first (w : World) :
  ∃ w1,
    (run (set_currentSortType DEFAULT) ;; filterModel_setFilter MAJOR ALL) w
      = (Returns tt, w1)
    ∧ calls w1 = calls w ++ [SetFilter MAJOR ALL]
    ∧ currentSortType w1 = DEFAULT ∧ filterModel w1 = ALL ∧ filterType w1 = ALL
    ∧ taskNewPresenter w1 = Inactive
    ∧ createTask w = (Returns tt, set_taskNewPresenter Active w1)
    ∧ currentSortType (set_taskNewPresenter Active w1) = DEFAULT
    ∧ filterModel (set_taskNewPresenter Active w1) = ALL
    ∧ taskNewPresenter (set_taskNewPresenter Active w1) = Active.
Proof.
  set (w0 := set_filterModel ALL (record_call (SetFilter MAJOR ALL)
                (set_currentSortType DEFAULT w))).
  set (w1 := renderBoard (clearBoard true true w0)).
  assert (Hfields :
    calls w1 = calls w ++ [SetFilter MAJOR ALL]
    ∧ currentSortType w1 = DEFAULT ∧ filterModel w1 = ALL ∧ filterType w1 = ALL
    ∧ taskNewPresenter w1 = Inactive).
  { subst w1. rewrite clearBoard_fields.
    render_cases w0; done. }
  assert (Hset : (run (set_currentSortType DEFAULT) ;; filterModel_setFilter MAJOR ALL) w
                 = (Returns tt, w1)).
  { rewrite bind_run. apply filterModel_setFilter_major. }
  assert (Hcreate : createTask w
            = (Returns tt, set_taskNewPresenter (creation_init (taskNewPresenter w1)) w1)).
  { apply createTask_run. }
  clearbody w1. clear w0.
  destruct Hfields as (Hcalls & Hsort & Hmodel & Hcopy & Hform).
  rewrite Hform in Hcreate. exists w1. by split_and!.
Qed.

(** ** Pagination over the reachable states *)

Lemma same_page_refl (w : World) : same_page w w.
Proof. by repeat split. Qed.

Lemma same_page_trans (w1 w2 w3 : World) :
  same_page w1 w2 → same_page w2 w3 → same_page w1 w3.
Proof.
  intros (? & ? & ? & ? & ? & ?) (? & ? & ? & ? & ? & ?).
  repeat split; congruence.
Qed.

Lemma page_invariant_same_page (w w' : World) :
  same_page w w' → page_invariant w → page_invariant w'.
Proof.
  intros (Ht & Hf & Hr & Hl & Hb & Hs) [Hrc Hload].
  unfold page_invariant. rewrite tasks_length in *.
  rewrite <- Ht, <- Hf, <- Hr, <- Hl, <- Hb, <- Hs. done.
Qed.

Lemma page_invariant_new (collection : list Task) (category : FilterType) :
  page_invariant (init (new_BoardPresenter collection category)).
Proof.
  unfold init. rewrite renderBoard_loading by done.
  split; [simpl; lia|]. by intros _.
Qed.

Lemma page_invariant_render (w : World) :
  page_invariant w → page_invariant (renderBoard w).
Proof.
  intros Hinv. destruct (isLoading w) eqn:Hl.
  - rewrite renderBoard_loading by done.
    eapply page_invariant_same_page; [|exact Hinv]. by repeat split.
  - rewrite renderBoard_loaded by done. destruct Hinv as [Hrc _]. split; [|done].
    rewrite tasks_length in *. simpl. done.
Qed.

Lemma page_invariant_clear (resetRenderedTaskCount resetSortType : bool) (w : World) :
  (isLoading w = true → renderedTaskCount w ≤ TASK_COUNT_PER_STEP) →
  page_invariant (clearBoard resetRenderedTaskCount resetSortType w).
Proof.
  intros Hload. rewrite clearBoard_fields. split.
  - rewrite !tasks_length; simpl. destruct resetRenderedTaskCount; lia.
  - simpl. intros Hl. split_and!; [|done..].
    destruct resetRenderedTaskCount; [done|]. specialize (Hload Hl). lia.
Qed.

Lemma page_invariant_notify (updateType : UpdateType) (data : option Task)
    (collection : list Task) (w : World) (o : Completion unit) (w' : World) :
  page_invariant w → honours_kind updateType w collection →
  handleModelEvent updateType data (set_tasksModel collection w) = (o, w') →
  page_invariant w'.
Proof.
  intros [Hrc Hload] Hkind Hev.
  destruct updateType; unfold handleModelEvent, run in Hev.
  - (* PATCH *)
    assert (Hpage : page_invariant (set_tasksModel collection w)).
    { split; [|done]. rewrite tasks_length in *. simpl in *. by rewrite Hkind. }
    destruct data as [d|]; [|by apply pair_equal_spec in Hev as [_ <-]].
    unfold on_presenter in Hev.
    destruct (_ !! _); apply pair_equal_spec in Hev as [_ <-]; [|done].
    eapply page_invariant_same_page; [|exact Hpage]. by repeat split.
  - (* MINOR *)
    apply pair_equal_spec in Hev as [_ <-].
    apply page_invariant_render, page_invariant_clear.
    simpl. intros Hl. by apply Hload.
  - (* MAJOR *)
    apply pair_equal_spec in Hev as [_ <-].
    apply page_invariant_render, page_invariant_clear.
    simpl. intros Hl. by apply Hload.
  - (* INIT *)
    apply pair_equal_spec in Hev as [_ <-]. apply page_invariant_render.
    simpl in Hkind. destruct (Hload Hkind) as (? & ? & ?).
    split; [|done]. rewrite tasks_length. simpl. lia.
Qed.

Lemma honours_kind_same_page (u : UpdateType) (w w' : World) (c : list Task) :
  same_page w w' → honours_kind u w c → honours_kind u w' c.
Proof.
  intros (Ht & Hf & _ & Hl & _ & _). destruct u; simpl; [|done..|].
  - by rewrite <- Ht, <- Hf.
  - by rewrite <- Hl.
Qed.

Lemma same_page_taskNewPresenter (x : CreationState) (w : World) :
  same_page w (set_taskNewPresenter x w).
Proof. by repeat split. Qed.

Lemma page_invariant_step (w w' : World) :
  step w w' → page_invariant w → page_invariant w'.
Proof.
  intros Hstep Hinv. destruct Hstep as
    [w u c data o w' Hkind Hev | w category o w' Hset | w Hbutton | w sortType Hsort
    | w | w a u t o w' Hcall | w a u t reply o w' Hreply Hact | w o w' Hcreate].
  - by eapply page_invariant_notify.
  - rewrite filterModel_setFilter_major in Hset.
    apply pair_equal_spec in Hset as [_ <-].
    apply page_invariant_render, page_invariant_clear. apply Hinv.
  - destruct Hinv as [Hrc Hload].
    rewrite handleLoadMoreButtonClick_fields. cbv zeta. split.
    + rewrite tasks_length in Hrc. rewrite !tasks_length. simpl. lia.
    + simpl. intros Hl. destruct (Hload Hl) as (_ & Hno & _). congruence.
  - unfold handleSortTypeChange. case_decide; [done|].
    apply page_invariant_render, page_invariant_clear. apply Hinv.
  - eapply page_invariant_same_page; [|exact Hinv]. by repeat split.
  - destruct (handleViewAction_call_board _ _ _ _ _ _ Hcall) as [Hsame _].
    eapply page_invariant_same_page; [by apply same_board_page|done].
  - destruct (handleViewAction_settle_board _ _ _ _ _ _ _ Hact)
      as (o2 & ws & Hset & Hsame & _).
    eapply page_invariant_same_page; [by apply same_board_page|].
    apply model_settles_cases in Hset. destruct reply as [|c payload].
    + by destruct Hset as [_ ->].
    + by eapply page_invariant_notify.
  - rewrite createTask_run in Hcreate.
    apply pair_equal_spec in Hcreate as [_ <-]. cbv zeta.
    set (w0 := set_filterModel ALL _).
    eapply page_invariant_same_page; [apply same_page_taskNewPresenter|].
    apply page_invariant_render, page_invariant_clear. apply Hinv.
Qed.

Lemma page_invariant_reachable (collection : list Task) (category : FilterType) (w : World) :
  reachable collection category w → page_invariant w.
Proof.
  unfold reachable. revert w. apply rtc_ind_r.
  - apply page_invariant_new.
  - intros w1 w2 _ Hstep IH. by eapply page_invariant_step.
Qed.

(** ** Clearing and rendering again *)

Lemma tasks_length_sort (sortType : SortType) (w : World) :
  length (tasks (set_currentSortType sortType w)).1 = length (tasks w).1.
Proof. by rewrite !tasks_length. Qed.

Lemma rerender_loading (resetRenderedTaskCount resetSortType : bool) (w : World) :
  isLoading w = true →
  renderBoard (clearBoard resetRenderedTaskCount resetSortType w)
  = mkWorld (tasksModel w) (filterModel w) true (taskListComponent w) true None None false
      (if resetRenderedTaskCount then TASK_COUNT_PER_STEP
       else length (tasks w).1 `min` renderedTaskCount w)
      ∅ Inactive
      (if resetSortType then DEFAULT else currentSortType w)
      (filterModel w) true (calls w).
Proof.
  intros Hl. rewrite clearBoard_fields.
  rewrite renderBoard_loading by (fields; exact Hl).
  unfold set_loadingComponent, set_boardComponent. fields. by rewrite Hl.
Qed.

Lemma rerender_loaded (resetRenderedTaskCount resetSortType : bool) (w : World) :
  isLoading w = false →
  renderBoard (clearBoard resetRenderedTaskCount resetSortType w)
  = mkWorld (tasksModel w) (filterModel w) true
      (if length (tasks w).1 =? 0 then taskListComponent w else true)
      false
      (if length (tasks w).1 =? 0 then Some (filterModel w) else None)
      (if length (tasks w).1 =? 0 then None
       else Some (if resetSortType then DEFAULT else currentSortType w))
      ((if resetRenderedTaskCount then TASK_COUNT_PER_STEP
        else length (tasks w).1 `min` renderedTaskCount w) <? length (tasks w).1)
      (if resetRenderedTaskCount then TASK_COUNT_PER_STEP
       else length (tasks w).1 `min` renderedTaskCount w)
      (foldl (λ m t, <[id t := presenter_init t]> m) ∅
         (take (if resetRenderedTaskCount then TASK_COUNT_PER_STEP
                else length (tasks w).1 `min` renderedTaskCount w)
            (tasks (set_currentSortType
                      (if resetSortType then DEFAULT else currentSortType w) w)).1))
      Inactive
      (if resetSortType then DEFAULT else currentSortType w)
      (filterModel w) false (calls w).
Proof.
  intros Hl. rewrite clearBoard_fields.
  set (count := if resetRenderedTaskCount then TASK_COUNT_PER_STEP
                else length (tasks w).1 `min` renderedTaskCount w).
  set (sortType := if resetSortType then DEFAULT else currentSortType w).
  set (wc := mkWorld _ _ _ _ _ _ _ _ _ _ _ _ _ _ _).
  assert (Hts : (tasks wc).1 = (tasks (set_currentSortType sortType w)).1).
  { by apply tasks_ext. }
  assert (Hlen : length (tasks wc).1 = length (tasks w).1).
  { by rewrite Hts, tasks_length_sort. }
  rewrite (renderBoard_loaded wc) by (subst wc; fields; exact Hl).
  cbv zeta. rewrite Hlen, Hts. subst wc. fields.
  assert (Htake : take (length (tasks w).1 `min` count)
                    (tasks (set_currentSortType sortType w)).1
                  = take count (tasks (set_currentSortType sortType w)).1).
  { destruct (decide (count ≤ length (tasks w).1)) as [Hle|Hgt].
    - f_equal. lia.
    - rewrite !take_ge; [done|rewrite tasks_length_sort; lia..]. }
  rewrite Htake.
  destruct (length (tasks w).1 =? 0) eqn:Hzero.
  - apply Nat.eqb_eq in Hzero. rewrite Hzero.
    replace (count <? 0) with false by (symmetry; apply Nat.ltb_ge; lia). done.
  - by destruct (count <? length (tasks w).1).
Qed.

(** ** What the board shows *)

Lemma presenters_size_le (ts : list Task) (m : gmap TaskId TaskPresenter) :
  size (foldl (λ m t, <[id t := presenter_init t]> m) m ts) ≤ size m + length ts.
Proof.
  revert m. induction ts as [|t ts IH]; intros m; simpl; [lia|].
  etrans; [apply IH|]. rewrite map_size_insert. destruct (m !! id t); simpl; lia.
Qed.

(** The invariant reads the collection only through the length of the
    derived sequence. *)
Lemma board_invariant_transfer (w w' : World) :
  length (tasks w).1 = length (tasks w').1 →
  filterModel w = filterModel w' → boardComponent w = boardComponent w' →
  loadingComponent w = loadingComponent w' → noTaskComponent w = noTaskComponent w' →
  sortComponent w = sortComponent w' →
  loadMoreButtonComponent w = loadMoreButtonComponent w' →
  renderedTaskCount w = renderedTaskCount w' →
  dom (taskPresenter w) = dom (taskPresenter w') →
  currentSortType w = currentSortType w' → filterType w = filterType w' →
  isLoading w = isLoading w' →
  board_invariant w → board_invariant w'.
Proof.
  intros Hlen Hf Hb Hlc Hn Hs Hlm Hrc Hdom Hst Hft Hl (Hload & Hsize & Hshow).
  assert (Hempty : taskPresenter w = ∅ → taskPresenter w' = ∅).
  { intros Hm. apply (dom_empty_iff_L (D:=gset TaskId)).
    by rewrite <- Hdom, Hm, dom_empty_L. }
  unfold board_invariant.
  rewrite <- Hlc, <- Hl, <- Hrc, <- Hlen, <- Hf, <- Hb, <- Hn, <- Hs, <- Hlm, <- Hst, <- Hft.
  split_and!; [done| |].
  - by rewrite <- (size_dom (D:=gset TaskId)), <- Hdom, size_dom.
  - destruct (isLoading w).
    + destruct Hshow as (Hm & ? & ? & ?). split_and!; [by apply Hempty|done..].
    + destruct Hshow as (? & ? & ? & ? & ? & Hm). split_and!; [done..|].
      intros Hzero. by apply Hempty, Hm.
Qed.

Lemma board_invariant_same_board (w w' : World) :
  same_board w w' → board_invariant w → board_invariant w'.
Proof.
  unfold same_board. intros H. destruct_and!.
  apply board_invariant_transfer; try done. by rewrite !tasks_length; congruence.
Qed.

Lemma board_invariant_rerender (resetRenderedTaskCount resetSortType : bool) (w : World) :
  board_invariant (renderBoard (clearBoard resetRenderedTaskCount resetSortType w)).
Proof.
  destruct (isLoading w) eqn:Hl.
  - rewrite rerender_loading by done. unfold board_invariant. fields.
    split_and!; [done|rewrite map_size_empty; lia|done..].
  - rewrite rerender_loaded by done.
    set (count := if resetRenderedTaskCount then TASK_COUNT_PER_STEP
                  else length (tasks w).1 `min` renderedTaskCount w).
    set (sortType := if resetSortType then DEFAULT else currentSortType w).
    set (ts := (tasks (set_currentSortType sortType w)).1).
    assert (Hlen : length ts = length (tasks w).1) by apply tasks_length_sort.
    clearbody ts. unfold board_invariant. rewrite !tasks_length. fields.
    rewrite <- (tasks_length w).
    split_and!; try done.
    + etrans; [apply presenters_size_le|].
      rewrite map_size_empty, length_take. lia.
    + intros Hzero. rewrite Hzero in Hlen. apply nil_length_inv in Hlen.
      subst ts. by rewrite take_nil.
Qed.

(** ** Routed actions, on the whole board *)


Lemma board_invariant_new (collection : list Task) (category : FilterType) :
  board_invariant (init (new_BoardPresenter collection category)).
Proof.
  unfold init. rewrite renderBoard_loading by done.
  unfold board_invariant, new_BoardPresenter. fields.
  split_and!; [done|rewrite map_size_empty; unfold TASK_COUNT_PER_STEP; lia|done..].
Qed.

Lemma board_invariant_collection (collection : list Task) (w : World) :
  length (filterTable (filterModel w) collection)
  = length (filterTable (filterModel w) (tasksModel w)) →
  board_invariant w → board_invariant (set_tasksModel collection w).
Proof.
  intros Hlen. apply board_invariant_transfer; try reflexivity.
  rewrite !tasks_length. fields. by rewrite Hlen.
Qed.

Lemma board_invariant_notify (updateType : UpdateType) (data : option Task)
    (collection : list Task) (w : World) (o : Completion unit) (w' : World) :
  board_invariant w → honours_kind updateType w collection →
  handleModelEvent updateType data (set_tasksModel collection w) = (o, w') →
  board_invariant w'.
Proof.
  intros Hinv Hkind Hev.
  destruct updateType; unfold handleModelEvent, run in Hev.
  - (* PATCH *)
    pose proof (board_invariant_collection collection w Hkind Hinv) as Hbase.
    destruct data as [d|]; [|by apply pair_equal_spec in Hev as [_ <-]].
    unfold on_presenter in Hev.
    destruct (_ !! _) eqn:Hd; apply pair_equal_spec in Hev as [_ <-]; [|done].
    eapply board_invariant_same_board; [|exact Hbase].
    apply same_board_taskPresenter. apply dom_insert_lookup_L. by eexists.
  - apply pair_equal_spec in Hev as [_ <-]. apply board_invariant_rerender.
  - apply pair_equal_spec in Hev as [_ <-]. apply board_invariant_rerender.
  - (* INIT *)
    apply pair_equal_spec in Hev as [_ <-]. simpl in Hkind.
    destruct Hinv as (_ & _ & Hshow). rewrite Hkind in Hshow.
    destruct Hshow as (Hm & Hn & Hs & Hb).
    set (w0 := set_loadingComponent false (set_isLoading false
                 (set_tasksModel collection w))).
    rewrite (renderBoard_loaded w0) by reflexivity. cbv zeta.
    set (ts := (tasks w0).1).
    assert (Hlen : ∀ x1 x2 x3 x4 x5 x6 x7 x8 x9 x10 x11,
      length (tasks (mkWorld (tasksModel w0) (filterModel w0) x1 x2 x3 x4 x5 x6 x7 x8 x9
                       x10 x11 false (calls w0))).1 = length ts).
    { intros. subst ts. by rewrite !tasks_length. }
    unfold board_invariant. fields. rewrite Hlen. clearbody ts.
    subst w0. fields. rewrite Hm, Hn, Hs, Hb.
    split_and!; try done.
    + etrans; [apply presenters_size_le|].
      rewrite map_size_empty, length_take. lia.
    + destruct (length ts =? 0) eqn:Hzero;
        [|by destruct (renderedTaskCount w <? length ts)].
      apply Nat.eqb_eq in Hzero. rewrite Hzero. symmetry. apply Nat.ltb_ge. lia.
    + intros Hzero. apply nil_length_inv in Hzero. subst ts. by rewrite take_nil.
Qed.

Lemma board_invariant_step (w w' : World) :
  step w w' → board_invariant w → board_invariant w'.
Proof.
  intros Hstep Hinv. destruct Hstep as
    [w u c data o w' Hkind Hev | w category o w' Hset | w Hbutton | w sortType Hsort
    | w | w a u t o w' Hcall | w a u t reply o w' Hreply Hact | w o w' Hcreate].
  - by eapply board_invariant_notify.
  - rewrite filterModel_setFilter_major in Hset.
    apply pair_equal_spec in Hset as [_ <-]. apply board_invariant_rerender.
  - (* load more *)
    destruct Hinv as (Hload & Hsize & Hshow).
    destruct (isLoading w) eqn:Hl.
    { destruct Hshow as (_ & _ & _ & Hno). congruence. }
    destruct Hshow as (Hboard & Hcopy & Hmore & Hsortc & Hnone & Hempty).
    rewrite Hbutton in Hmore. symmetry in Hmore. apply Nat.ltb_lt in Hmore.
    rewrite handleLoadMoreButtonClick_fields. cbv zeta.
    set (ts := (tasks w).1) in *.
    set (count := length ts `min` (renderedTaskCount w + TASK_COUNT_PER_STEP)).
    assert (Hlen : ∀ x1 x2 x3 x4 x5 x6 x7 x8 x9 x10 x11,
      length (tasks (mkWorld (tasksModel w) (filterModel w) x1 x2 x3 x4 x5 x6 x7 x8 x9
                       (currentSortType w) x10 x11 (calls w))).1 = length ts).
    { intros. subst ts. by rewrite !tasks_length. }
    unfold board_invariant. fields. rewrite Hlen, Hl. clearbody ts.
    split_and!; try done.
    + etrans; [apply presenters_size_le|]. unfold slice.
      rewrite length_take, length_drop. subst count. lia.
    + destruct (length ts <=? count) eqn:Hle.
      * apply Nat.leb_le in Hle. symmetry. apply Nat.ltb_ge. lia.
      * apply Nat.leb_gt in Hle. rewrite Hbutton. symmetry. by apply Nat.ltb_lt.
    + intros Hzero. lia.
  - (* sort type *)
    unfold handleSortTypeChange. case_decide; [done|]. apply board_invariant_rerender.
  - (* mode change *)
    eapply board_invariant_same_board; [|exact Hinv].
    unfold handleModeChange.
    eapply same_board_trans; [apply same_board_taskNewPresenter|].
    apply same_board_taskPresenter. fields. apply dom_fmap_L.
  - (* routed action, up to the await *)
    destruct (handleViewAction_call_board _ _ _ _ _ _ Hcall) as [Hsame _].
    by eapply board_invariant_same_board.
  - (* settlement *)
    destruct (handleViewAction_settle_board _ _ _ _ _ _ _ Hact)
      as (o2 & ws & Hset & Hsame & _).
    eapply board_invariant_same_board; [exact Hsame|].
    apply model_settles_cases in Hset. destruct reply as [|c payload].
    + by destruct Hset as [_ ->].
    + by eapply board_invariant_notify.
  - rewrite createTask_run in Hcreate.
    apply pair_equal_spec in Hcreate as [_ <-]. cbv zeta.
    eapply board_invariant_same_board; [apply same_board_taskNewPresenter|].
    apply board_invariant_rerender.
Qed.

Lemma board_invariant_reachable (collection : list Task) (category : FilterType) (w : World) :
  reachable collection category w → board_invariant w.
Proof.
  unfold reachable. revert w. apply rtc_ind_r.
  - apply board_invariant_new.
  - intros w1 w2 _ Hstep IH. by eapply board_invariant_step.
Qed.

(** ** The board over the reachable states *)

(** X1: while the presenter is loading, the board shows the loading
    indicator and nothing else: no item presenter, no sort control, no
    placeholder and no load-more button. *)
Theorem loading_shows_only_indicator (collection : list Task) (category : FilterType)
    (w : World) :
  reachable collection category w → isLoading w = true →
  loadingComponent w = true ∧ taskPresenter w = ∅ ∧ sortComponent w = None
  ∧ noTaskComponent w = None ∧ loadMoreButtonComponent w = false.
Proof.
  intros Hreach Hl.
  destruct (board_invariant_reachable _ _ _ Hreach) as (Hload & _ & Hshow).
  rewrite Hl in Hshow, Hload. by destruct Hshow as (? & ? & ? & ?).
Qed.

(** X2: once loaded, the load-more button is mounted exactly when the
    rendered count is below the length of the derived sequence, and the
    loading indicator is gone. *)
Theorem load_more_button_iff_hidden (collection : list Task) (category : FilterType)
    (w : World) :
  reachable collection category w → isLoading w = false →
  loadingComponent w = false
  ∧ (loadMoreButtonComponent w = true ↔ renderedTaskCount w < length (tasks w).1).
Proof.
  intros Hreach Hl.
  destruct (board_invariant_reachable _ _ _ Hreach) as (Hload & _ & Hshow).
  rewrite Hl in Hshow, Hload. destruct Hshow as (_ & _ & -> & _).
  split; [done|]. apply Nat.ltb_lt.
Qed.

(** X3: a mounted sort control shows the current sort type, and it is
    mounted exactly when the board is loaded and the derived sequence is not
    empty. *)
Theorem sort_control_shows_current (collection : list Task) (category : FilterType)
    (w : World) :
  reachable collection category w →
  (∀ s, sortComponent w = Some s →
        s = currentSortType w ∧ isLoading w = false ∧ 0 < length (tasks w).1)
  ∧ (isLoading w = false → 0 < length (tasks w).1 →
     sortComponent w = Some (currentSortType w)).
Proof.
  intros Hreach.
  destruct (board_invariant_reachable _ _ _ Hreach) as (_ & _ & Hshow).
  destruct (isLoading w).
  - destruct Hshow as (_ & _ & Hs & _). split; [|done]. intros s. by rewrite Hs.
  - destruct Hshow as (_ & _ & _ & Hs & _). rewrite Hs.
    destruct (length (tasks w).1 =? 0) eqn:Hzero.
    + apply Nat.eqb_eq in Hzero. split; [done|]. lia.
    + apply Nat.eqb_neq in Hzero. split; [|done].
      intros s [= <-]. split_and!; [done..|lia].
Qed.

(** X4: the placeholder is mounted exactly when the board is loaded and the
    derived sequence is empty; it names the active category of the filter
    model, and with it there is no item presenter, no sort control and no
    load-more button. *)
Theorem placeholder_iff_empty (collection : list Task) (category : FilterType)
    (w : World) :
  reachable collection category w →
  (∀ f, noTaskComponent w = Some f →
        f = filterModel w ∧ isLoading w = false ∧ length (tasks w).1 = 0
        ∧ taskPresenter w = ∅ ∧ sortComponent w = None
        ∧ loadMoreButtonComponent w = false)
  ∧ (isLoading w = false → length (tasks w).1 = 0 →
     noTaskComponent w = Some (filterModel w)).
Proof.
  intros Hreach.
  destruct (board_invariant_reachable _ _ _ Hreach) as (_ & _ & Hshow).
  destruct (isLoading w).
  - destruct Hshow as (_ & Hn & _). split; [|done]. intros f. by rewrite Hn.
  - destruct Hshow as (_ & _ & Hb & Hs & Hn & Hm). rewrite Hn, Hs, Hb.
    destruct (length (tasks w).1 =? 0) eqn:Hzero.
    + apply Nat.eqb_eq in Hzero. split; [|done].
      intros f [= <-]. split_and!; [done..|by apply Hm|done|].
      apply Nat.ltb_ge. lia.
    + apply Nat.eqb_neq in Hzero. split; [done|]. intros _ Hlen. lia.
Qed.

(** X5: the item presenters never outnumber the rendered count. *)
Theorem presenters_within_count (collection : list Task) (category : FilterType)
    (w : World) :
  reachable collection category w → size (taskPresenter w) ≤ renderedTaskCount w.
Proof.
  intros Hreach. by destruct (board_invariant_reachable _ _ _ Hreach) as (_ & ? & _).
Qed.

(** ** Notifications and intents, one by one *)

Lemma tasks_default (w : World) :
  currentSortType w = DEFAULT →
  (tasks w).1 = filterTable (filterModel w) (tasksModel w).
Proof. unfold tasks. cbn [fst]. fields. by intros ->. Qed.

Lemma window_presenters (ts : list Task) :
  dom (foldl (λ m t, <[id t := presenter_init t]> m) (∅ : gmap TaskId TaskPresenter) ts)
  = list_to_set (id <$> ts)
  ∧ ∀ k p,
      foldl (λ m t, <[id t := presenter_init t]> m) (∅ : gmap TaskId TaskPresenter) ts !! k
      = Some p →
      ∃ t, t ∈ ts ∧ id t = k ∧ p = presenter_init t.
Proof.
  split; [|apply presenters_window].
  by rewrite presenters_dom, dom_empty_L, (left_id_L ∅ (∪)).
Qed.

(** The derived sequence and the item presenters after a board that is
    loaded has been cleared and rendered again. *)
Lemma rerender_window (resetRenderedTaskCount resetSortType : bool) (w : World) :
  isLoading w = false →
  (tasks (renderBoard (clearBoard resetRenderedTaskCount resetSortType w))).1
  = (tasks (set_currentSortType
              (if resetSortType then DEFAULT else currentSortType w) w)).1
  ∧ taskPresenter (renderBoard (clearBoard resetRenderedTaskCount resetSortType w))
    = foldl (λ m t, <[id t := presenter_init t]> m) ∅
        (take (renderedTaskCount
                 (renderBoard (clearBoard resetRenderedTaskCount resetSortType w)))
           (tasks (renderBoard (clearBoard resetRenderedTaskCount resetSortType w))).1).
Proof.
  intros Hl. rewrite rerender_loaded by done.
  set (sortType := if resetSortType then DEFAULT else currentSortType w).
  set (count := if resetRenderedTaskCount then TASK_COUNT_PER_STEP
                else length (tasks w).1 `min` renderedTaskCount w).
  set (w' := mkWorld _ _ _ _ _ _ _ _ _ _ _ _ _ _ _).
  assert (Hts : (tasks w').1 = (tasks (set_currentSortType sortType w)).1).
  { by apply tasks_ext. }
  split; [done|]. rewrite Hts. by subst w'.
Qed.

(** X6: asking for the sort type the board already has changes nothing, so
    a sort change is idempotent; after any sort change the board has the
    requested sort type. *)
Theorem sort_change_idempotent (sortType : SortType) (w : World) :
  currentSortType (handleSortTypeChange sortType w) = sortType
  ∧ (currentSortType w = sortType → handleSortTypeChange sortType w = w)
  ∧ handleSortTypeChange sortType (handleSortTypeChange sortType w)
    = handleSortTypeChange sortType w.
Proof.
  assert (Hset : currentSortType (handleSortTypeChange sortType w) = sortType).
  { unfold handleSortTypeChange. case_decide; [done|].
    rewrite clearBoard_fields. render_cases (set_currentSortType sortType w); done. }
  split_and!; [done| |].
  - intros Hsame. unfold handleSortTypeChange. by case_decide.
  - revert Hset. generalize (handleSortTypeChange sortType w). intros w' Hset.
    unfold handleSortTypeChange. by case_decide.
Qed.

(** X7: a change to another sort type on a loaded board resets the rendered
    count to one page and renders the board again: the models and the
    recorded calls are untouched, the derived sequence is the former one
    rearranged, and the item presenters are fresh ones for its first page;
    the load-more button is mounted exactly when more than a page exists. *)
Theorem sort_change_rerenders (sortType : SortType) (w : World) :
  currentSortType w ≠ sortType → isLoading w = false →
  let w' := handleSortTypeChange sortType w in
  currentSortType w' = sortType
  ∧ renderedTaskCount w' = TASK_COUNT_PER_STEP
  ∧ tasksModel w' = tasksModel w ∧ filterModel w' = filterModel w ∧ calls w' = calls w
  ∧ (tasks w').1 = (tasks (set_currentSortType sortType w)).1
  ∧ (tasks w').1 ≡ₚ (tasks w).1
  ∧ dom (taskPresenter w') = list_to_set (id <$> take TASK_COUNT_PER_STEP (tasks w').1)
  ∧ (∀ k p, taskPresenter w' !! k = Some p →
            ∃ t, t ∈ take TASK_COUNT_PER_STEP (tasks w').1 ∧ id t = k
                 ∧ p = presenter_init t)
  ∧ loadMoreButtonComponent w' = (TASK_COUNT_PER_STEP <? length (tasks w).1).
Proof.
  intros Hne Hl w'.
  assert (Hw' : w' = renderBoard (clearBoard true false (set_currentSortType sortType w))).
  { subst w'. unfold handleSortTypeChange. by case_decide. }
  clearbody w'.
  destruct (rerender_window true false (set_currentSortType sortType w) Hl)
    as [Hts Hmap].
  rewrite <- Hw' in Hts, Hmap.
  assert (Hfields : currentSortType w' = sortType
    ∧ renderedTaskCount w' = TASK_COUNT_PER_STEP
    ∧ tasksModel w' = tasksModel w ∧ filterModel w' = filterModel w ∧ calls w' = calls w
    ∧ loadMoreButtonComponent w' = (TASK_COUNT_PER_STEP <? length (tasks w).1)).
  { rewrite Hw', rerender_loaded by done. fields.
    by rewrite (tasks_length_sort sortType w). }
  destruct Hfields as (Hs & Hrc & Htm & Hfm & Hc & Hb).
  rewrite Hrc in Hmap. rewrite Hmap.
  split_and!; try done.
  - rewrite Hts. by rewrite !tasks_perm.
  - apply window_presenters.
  - apply window_presenters.
Qed.

(** X8: a Patch for a task that has an item presenter re-initialises that
    presenter with the new data; every other presenter, the rendered count,
    the sort type, the mounted controls, the creation form and the recorded
    calls are as before. *)
Theorem patch_reinitialises_one (data : Task) (w : World) :
  is_Some (taskPresenter w !! id data) →
  ∃ w', handleModelEvent PATCH (Some data) w = (Returns tt, w')
    ∧ taskPresenter w' !! id data = Some (presenter_init data)
    ∧ (∀ k, k ≠ id data → taskPresenter w' !! k = taskPresenter w !! k)
    ∧ same_board w w'
    ∧ taskNewPresenter w' = taskNewPresenter w ∧ calls w' = calls w.
Proof.
  intros [p Hp]. unfold handleModelEvent.
  erewrite on_presenter_some by done. eexists. split; [reflexivity|].
  fields. split_and!; [apply lookup_insert_eq| | |done..].
  - intros k Hk. by rewrite lookup_insert_ne.
  - apply same_board_taskPresenter. apply dom_insert_lookup_L. by eexists.
Qed.

(** X10: a Major notification on a loaded board resets the rendered count to
    one page and the sort type to DEFAULT, closes the creation form and
    renders the first page of the filtered collection in collection order. *)
Theorem major_notification (data : option Task) (w : World) :
  isLoading w = false →
  let w' := (handleModelEvent MAJOR data w).2 in
  (handleModelEvent MAJOR data w).1 = Returns tt
  ∧ renderedTaskCount w' = TASK_COUNT_PER_STEP ∧ currentSortType w' = DEFAULT
  ∧ taskNewPresenter w' = Inactive
  ∧ tasksModel w' = tasksModel w ∧ filterModel w' = filterModel w ∧ calls w' = calls w
  ∧ (tasks w').1 = filterTable (filterModel w) (tasksModel w)
  ∧ dom (taskPresenter w')
    = list_to_set (id <$> take TASK_COUNT_PER_STEP
                            (filterTable (filterModel w) (tasksModel w)))
  ∧ (∀ k p, taskPresenter w' !! k = Some p →
            ∃ t, t ∈ take TASK_COUNT_PER_STEP (filterTable (filterModel w) (tasksModel w))
                 ∧ id t = k ∧ p = presenter_init t)
  ∧ loadMoreButtonComponent w' = (TASK_COUNT_PER_STEP <? length (tasks w).1).
Proof.
  intros Hl w'.
  assert (Hw' : w' = renderBoard (clearBoard true true w)) by done.
  clearbody w'.
  destruct (rerender_window true true w Hl) as [Hts Hmap].
  rewrite <- Hw' in Hts, Hmap.
  rewrite (tasks_default (set_currentSortType DEFAULT w)) in Hts by done.
  cbn [filterModel tasksModel set_currentSortType] in Hts.
  assert (Hfields : renderedTaskCount w' = TASK_COUNT_PER_STEP
    ∧ currentSortType w' = DEFAULT ∧ taskNewPresenter w' = Inactive
    ∧ tasksModel w' = tasksModel w ∧ filterModel w' = filterModel w ∧ calls w' = calls w
    ∧ loadMoreButtonComponent w' = (TASK_COUNT_PER_STEP <? length (tasks w).1)).
  { by rewrite Hw', rerender_loaded by done. }
  destruct Hfields as (Hrc & Hs & Hn & Htm & Hfm & Hc & Hb).
  rewrite Hrc, Hts in Hmap. rewrite Hmap.
  split_and!; try done; apply window_presenters.
Qed.

(** X11: the initial load.  After [init] the presenter is loading; when the
    Init notification arrives, the loading indicator goes, and the first
    page of the filtered collection is rendered in collection order under
    the DEFAULT sort, with the load-more button if more than a page exists,
    or the placeholder for the active category if nothing is to show. *)
Theorem initial_load (before collection : list Task) (category : FilterType) :
  let w' := (handleModelEvent INIT None
               (set_tasksModel collection (init (new_BoardPresenter before category)))).2 in
  isLoading w' = false ∧ loadingComponent w' = false ∧ boardComponent w' = true
  ∧ renderedTaskCount w' = TASK_COUNT_PER_STEP ∧ currentSortType w' = DEFAULT
  ∧ (tasks w').1 = filterTable category collection
  ∧ dom (taskPresenter w')
    = list_to_set (id <$> take TASK_COUNT_PER_STEP (filterTable category collection))
  ∧ (∀ k p, taskPresenter w' !! k = Some p →
            ∃ t, t ∈ take TASK_COUNT_PER_STEP (filterTable category collection)
                 ∧ id t = k ∧ p = presenter_init t)
  ∧ loadMoreButtonComponent w'
    = (TASK_COUNT_PER_STEP <? length (filterTable category collection))
  ∧ noTaskComponent w'
    = (if length (filterTable category collection) =? 0 then Some category else None)
  ∧ sortComponent w'
    = (if length (filterTable category collection) =? 0 then None else Some DEFAULT).
Proof.
  intros w'.
  set (w0 := set_loadingComponent false (set_isLoading false
               (set_tasksModel collection (init (new_BoardPresenter before category))))).
  assert (Hw' : w' = renderBoard w0) by done. clearbody w'.
  assert (Hw0 : w0 = mkWorld collection category true false false None None false
                       TASK_COUNT_PER_STEP ∅ Inactive DEFAULT ALL false []).
  { subst w0. unfold init. by rewrite renderBoard_loading. }
  clearbody w0. subst w0.
  rewrite renderBoard_loaded in Hw' by done. cbv zeta in Hw'.
  rewrite tasks_default in Hw' by done. fields_in Hw'.
  set (ts := filterTable category collection) in *.
  assert (Htake : take (length ts `min` TASK_COUNT_PER_STEP) ts
                  = take TASK_COUNT_PER_STEP ts).
  { destruct (decide (TASK_COUNT_PER_STEP ≤ length ts)).
    - f_equal. lia.
    - rewrite !take_ge; [done|lia..]. }
  rewrite Htake in Hw'.
  assert (Hts : (tasks w').1 = ts).
  { rewrite tasks_default by (by rewrite Hw'). by rewrite Hw'. }
  rewrite Hts. rewrite Hw'. fields.
  split_and!; try done; try apply window_presenters.
  destruct (length ts =? 0) eqn:Hzero; [|by destruct (_ <? _)].
  apply Nat.eqb_eq in Hzero. by rewrite Hzero.
Qed.

(** X12: a Minor notification that finds the derived sequence of a loaded
    board empty leaves the placeholder for the active category, no item
    presenter, no sort control and no load-more button, and a rendered
    count of zero. *)
Theorem minor_on_empty (data : option Task) (w : World) :
  isLoading w = false → length (tasks w).1 = 0 →
  let w' := (handleModelEvent MINOR data w).2 in
  renderedTaskCount w' = 0 ∧ noTaskComponent w' = Some (filterModel w)
  ∧ taskPresenter w' = ∅ ∧ sortComponent w' = None
  ∧ loadMoreButtonComponent w' = false.
Proof.
  intros Hl Hzero w'.
  assert (Hw' : w' = renderBoard (clearBoard false false w)) by done. clearbody w'.
  destruct (rerender_window false false w Hl) as [Hts Hmap].
  rewrite <- Hw' in Hts, Hmap.
  assert (Hnil : (tasks w').1 = []).
  { apply nil_length_inv. by rewrite Hts, tasks_length_sort. }
  rewrite Hnil, take_nil in Hmap.
  rewrite rerender_loaded in Hw' by done. rewrite Hzero in Hw'.
  rewrite Hmap. by rewrite Hw'.
Qed.

Lemma minor_run (data : option Task) (w : World) :
  handleModelEvent MINOR data w = (Returns tt, renderBoard (clearBoard false false w)).
Proof. done. Qed.

(** X13: the rendered count that a Minor notification clamped to zero stays
    zero: when a later Minor notification brings tasks back, the board
    renders no card at all, only the sort control and the load-more button;
    the first click on the button then reveals the first page. *)
Theorem minor_after_empty_renders_no_card (data data' : option Task)
    (collection : list Task) (w : World) :
  isLoading w = false → length (tasks w).1 = 0 →
  0 < length (filterTable (filterModel w) collection) →
  let w1 := (handleModelEvent MINOR data w).2 in
  let w2 := (handleModelEvent MINOR data' (set_tasksModel collection w1)).2 in
  let w3 := handleLoadMoreButtonClick w2 in
  renderedTaskCount w2 = 0 ∧ taskPresenter w2 = ∅
  ∧ loadMoreButtonComponent w2 = true ∧ noTaskComponent w2 = None
  ∧ sortComponent w2 = Some (currentSortType w)
  ∧ renderedTaskCount w3
    = TASK_COUNT_PER_STEP `min` length (filterTable (filterModel w) collection).
Proof.
  intros Hl Hzero Hsome. cbv zeta. rewrite !minor_run. cbn [snd].
  rewrite (rerender_loaded false false w) by done. rewrite Hzero.
  cbn [Nat.min Nat.eqb Nat.ltb Nat.leb].
  set (w1 := mkWorld _ _ _ _ _ _ _ _ _ _ _ _ _ _ _).
  set (w1c := set_tasksModel collection w1).
  assert (Hlen : length (tasks w1c).1 = length (filterTable (filterModel w) collection)).
  { by rewrite tasks_length. }
  rewrite (rerender_loaded false false w1c) by done. rewrite Hlen.
  assert (Hnz : (length (filterTable (filterModel w) collection) =? 0) = false)
    by (apply Nat.eqb_neq; lia).
  assert (Hlt : (0 <? length (filterTable (filterModel w) collection)) = true)
    by (by apply Nat.ltb_lt).
  subst w1c w1. fields. rewrite Nat.min_0_r, Hnz, Hlt, take_0. cbn [foldl].
  set (w2 := mkWorld _ _ _ _ _ _ _ _ _ _ _ _ _ _ _).
  assert (Hlen2 : length (tasks w2).1 = length (filterTable (filterModel w) collection)).
  { by rewrite tasks_length. }
  rewrite handleLoadMoreButtonClick_fields. cbv zeta. rewrite Hlen2.
  subst w2. fields. split_and!; [done..|lia].
Qed.

(** X14: rendering a list of tasks registers one fresh item presenter under
    each of their ids and removes none: the keys of the map grow by exactly
    those ids, presenters under other ids stay, and of several tasks with
    the same id the last one is presented. *)
Theorem renderTasks_registers (ts : list Task) (w : World) :
  dom (taskPresenter (renderTasks ts w))
  = dom (taskPresenter w) ∪ list_to_set (id <$> ts)
  ∧ (∀ k, k ∉ id <$> ts →
          taskPresenter (renderTasks ts w) !! k = taskPresenter w !! k)
  ∧ (∀ before t after, ts = before ++ t :: after → id t ∉ id <$> after →
       taskPresenter (renderTasks ts w) !! id t = Some (presenter_init t))
  ∧ size (taskPresenter (renderTasks ts w)) ≤ size (taskPresenter w) + length ts
  ∧ same_page w (renderTasks ts w).
Proof.
  rewrite renderTasks_presenters. fields. split_and!.
  - apply presenters_dom.
  - intros k Hk. by apply presenters_other.
  - intros before t after -> Hlast. rewrite foldl_app. cbn [foldl].
    rewrite presenters_other by done. apply lookup_insert_eq.
  - apply presenters_size_le.
  - by repeat split.
Qed.


(** X18: on a loaded board [createTask] shows, under the creation form, the
    first page of the tasks the ALL category admits, in collection order:
    whatever was revealed or sorted before is rendered anew from the top. *)
Theorem createTask_renders_first_page (w : World) :
  isLoading w = false →
  let w' := (createTask w).2 in
  (createTask w).1 = Returns tt
  ∧ taskNewPresenter w' = Active
  ∧ renderedTaskCount w' = TASK_COUNT_PER_STEP
  ∧ tasksModel w' = tasksModel w
  ∧ (tasks w').1 = filterTable ALL (tasksModel w)
  ∧ dom (taskPresenter w')
    = list_to_set (id <$> take TASK_COUNT_PER_STEP (filterTable ALL (tasksModel w)))
  ∧ (∀ k p, taskPresenter w' !! k = Some p →
            ∃ t, t ∈ take TASK_COUNT_PER_STEP (filterTable ALL (tasksModel w))
                 ∧ id t = k ∧ p = presenter_init t)
  ∧ loadMoreButtonComponent w'
    = (TASK_COUNT_PER_STEP <? length (filterTable ALL (tasksModel w))).
Proof.
  intros Hl. cbv zeta. rewrite createTask_run. cbn [fst snd]. cbv zeta.
  set (w0 := set_filterModel ALL (record_call (SetFilter MAJOR ALL)
                (set_currentSortType DEFAULT w))).
  assert (Hl0 : isLoading w0 = false) by done.
  destruct (rerender_window true true w0 Hl0) as [Hts Hmap].
  rewrite (tasks_default (set_currentSortType DEFAULT w0)) in Hts by done.
  assert (Hfields : taskNewPresenter (renderBoard (clearBoard true true w0)) = Inactive
    ∧ renderedTaskCount (renderBoard (clearBoard true true w0)) = TASK_COUNT_PER_STEP
    ∧ tasksModel (renderBoard (clearBoard true true w0)) = tasksModel w
    ∧ loadMoreButtonComponent (renderBoard (clearBoard true true w0))
      = (TASK_COUNT_PER_STEP <? length (filterTable ALL (tasksModel w)))).
  { rewrite rerender_loaded by done. fields. by rewrite tasks_length. }
  destruct Hfields as (Hn & Hrc & Htm & Hb).
  rewrite Hrc, Hts in Hmap.
  revert Hts Hmap Hn Hrc Htm Hb.
  generalize (renderBoard (clearBoard true true w0)). intros w1 Hts Hmap Hn Hrc Htm Hb.
  assert (Hts' : (tasks (set_taskNewPresenter (creation_init (taskNewPresenter w1)) w1)).1
                 = (tasks w1).1) by (by apply tasks_ext).
  rewrite Hts', Hts. fields. rewrite Hmap, Hn.
  split_and!; try done; apply window_presenters.
Qed.

(** X19: a mode change closes the creation form and every open editor and
    nothing more: no presenter is added or removed, each presents the task
    it presented, presenters that were not editing are as they were, and
    the models, pagination, sort type and mounted controls are untouched;
    a second mode change changes nothing. *)
Theorem mode_change_closes_editors (w : World) :
  let w' := handleModeChange w in
  taskNewPresenter w' = Inactive
  ∧ same_board w w' ∧ calls w' = calls w
  ∧ (∀ k, presented <$> taskPresenter w' !! k = presented <$> taskPresenter w !! k)
  ∧ (∀ k p, taskPresenter w' !! k = Some p → viewState p ≠ Editing)
  ∧ (∀ k p, taskPresenter w !! k = Some p → viewState p ≠ Editing →
            taskPresenter w' !! k = Some p)
  ∧ handleModeChange w' = w'.
Proof.
  cbv zeta. unfold handleModeChange. fields. split_and!.
  - done.
  - unfold same_board. fields. split_and!; try done. by rewrite dom_fmap_L.
  - done.
  - intros k. rewrite lookup_fmap. destruct (taskPresenter w !! k) as [p|]; [|done].
    simpl. unfold resetView. by destruct (viewState p).
  - intros k p. rewrite lookup_fmap.
    destruct (taskPresenter w !! k) as [q|]; [|done]. simpl. intros [= <-].
    unfold resetView. by destruct (viewState q) eqn:Hq; simpl; rewrite ?Hq.
  - intros k p Hp Hv. rewrite lookup_fmap, Hp. simpl. unfold resetView.
    by destruct (viewState p).
  - assert (Hidem : resetView <$> (resetView <$> taskPresenter w)
                    = resetView <$> taskPresenter w).
    { rewrite <- map_fmap_compose. apply map_fmap_ext.
      intros k p _. simpl. unfold resetView.
      by destruct (viewState p) eqn:Hp; simpl; rewrite ?Hp. }
    unfold set_taskPresenter, set_taskNewPresenter. fields. by rewrite Hidem.
Qed.

(** ** What is handled while an action awaits *)

Lemma rerender_calls (resetRenderedTaskCount resetSortType : bool) (w : World) :
  calls (renderBoard (clearBoard resetRenderedTaskCount resetSortType w)) = calls w.
Proof.
  destruct (isLoading w) eqn:Hl.
  - by rewrite rerender_loading.
  - by rewrite rerender_loaded.
Qed.

Lemma filterModel_setFilter_calls (category : FilterType) (w : World)
    (o : Completion unit) (w' : World) :
  filterModel_setFilter MAJOR category w = (o, w') →
  calls w' = calls w ++ [SetFilter MAJOR category].
Proof.
  rewrite filterModel_setFilter_major. intros Hset.
  apply pair_equal_spec in Hset as [_ <-]. by rewrite rerender_calls.
Qed.

Lemma handleLoadMoreButtonClick_calls (w : World) :
  calls (handleLoadMoreButtonClick w) = calls w.
Proof. by rewrite handleLoadMoreButtonClick_fields. Qed.

Lemma handleSortTypeChange_calls (sortType : SortType) (w : World) :
  calls (handleSortTypeChange sortType w) = calls w.
Proof.
  unfold handleSortTypeChange. case_decide; [done|]. by rewrite rerender_calls.
Qed.

Lemma createTask_calls (w : World) (o : Completion unit) (w' : World) :
  createTask w = (o, w') → calls w' = calls w ++ [SetFilter MAJOR ALL].
Proof.
  rewrite createTask_run. intros Hcreate.
  apply pair_equal_spec in Hcreate as [_ <-]. cbv zeta.
  set (w0 := set_filterModel ALL _).
  pose proof (rerender_calls true true w0) as Hcalls.
  revert Hcalls. generalize (renderBoard (clearBoard true true w0)).
  intros w1 Hcalls. fields. by rewrite Hcalls.
Qed.

(** No event removes a recorded call. *)
Lemma step_calls (w w' : World) : step w w' → ∃ more, calls w' = calls w ++ more.
Proof.
  intros Hstep. destruct Hstep as
    [w u c data o w' Hkind Hev | w category o w' Hset | w Hbutton | w sortType Hsort
    | w | w a u t o w' Hcall | w a u t reply o w' Hreply Hact | w o w' Hcreate].
  - destruct (handleModelEvent_frame _ _ _ _ _ Hev) as (Hcalls & _).
    exists []. rewrite Hcalls. fields. by rewrite app_nil_r.
  - eexists. by eapply filterModel_setFilter_calls.
  - exists []. by rewrite handleLoadMoreButtonClick_calls, app_nil_r.
  - exists []. by rewrite handleSortTypeChange_calls, app_nil_r.
  - exists []. by rewrite app_nil_r.
  - by destruct (handleViewAction_call_board _ _ _ _ _ _ Hcall) as [_ Hmore].
  - destruct (handleViewAction_settle_board _ _ _ _ _ _ _ Hact)
      as (o2 & ws & Hset & _ & more & Hmore).
    exists more. rewrite Hmore. f_equal.
    apply model_settles_cases in Hset. destruct reply as [|c payload].
    + by destruct Hset as [_ ->].
    + by destruct (handleModelEvent_frame _ _ _ _ _ Hset) as (-> & _).
  - eexists. by eapply createTask_calls.
Qed.

Lemma steps_calls (w w' : World) : rtc step w w' → ∃ more, calls w' = calls w ++ more.
Proof.
  induction 1 as [w|w1 w2 w3 Hstep _ [more' IH]].
  - exists []. by rewrite app_nil_r.
  - destruct (step_calls _ _ Hstep) as [more Hmore].
    exists (more ++ more'). by rewrite IH, Hmore, app_assoc.
Qed.

(** C3 (as amended): when the controller of the action exists as the action
    is routed, [block()] is called and then the model operation, and the
    action is suspended.  The events handled until the operation settles
    only add to the recorded calls.  In whatever state the board then is,
    the action returns with [unblock()] as its last call if the operation
    succeeded, or if it failed and the controller exists when the failure is
    caught (as it always does for an Add); if an Update or Delete fails and
    its item presenter is gone by then, a [TypeError] escapes and
    [unblock()] is not called. *)
Theorem blocks_around_model_call (a : UserAction) (u : UpdateType) (t : Task)
    (reply : ModelReply) (w : World) :
  a = ADD_TASK ∨ is_Some (taskPresenter w !! id t) →
  ∃ w1, handleViewAction_call a u t w = (Returns tt, w1)
    ∧ calls w1 = calls w ++ [Block; ModelCall a u t]
    ∧ (∀ w2, rtc step w1 w2 → ∃ during, calls w2 = calls w1 ++ during)
    ∧ ∀ w2 during, calls w2 = calls w1 ++ during →
        ∃ o2 ws o w',
          model_settles u reply w2 = (o2, ws)
          ∧ handleViewAction_settle a u t reply w2 = (o, w')
          ∧ (o2 = Returns tt ∨ a = ADD_TASK ∨ is_Some (taskPresenter w2 !! id t) →
             o = Returns tt
             ∧ calls w' = calls w ++ [Block; ModelCall a u t] ++ during ++ [Unblock])
          ∧ (o2 ≠ Returns tt → a ≠ ADD_TASK → taskPresenter w2 !! id t = None →
             o = Throws TypeError ∧ calls w' = calls w2).
Proof.
  intros Hctl.
  destruct (handleViewAction_call_returns a u t w Hctl) as (w1 & Hcall & Hcalls & _).
  exists w1. split_and!; [done..|apply steps_calls|]. intros w2 during Hduring.
  rewrite Hcalls, <- app_assoc in Hduring.
  destruct (model_settles u reply w2) as [o2 ws] eqn:Hset.
  destruct (handleViewAction_settle a u t reply w2) as [o w'] eqn:Hrun.
  exists o2, ws, o, w'. split_and!; [done..| |].
  - intros Hok. destruct o2 as [[]|e].
    + rewrite (handleViewAction_settle_success a u t reply w2 ws Hset) in Hrun.
      apply pair_equal_spec in Hrun as [<- <-]. split; [done|].
      apply model_settles_cases in Hset. destruct reply as [|c payload].
      * by destruct Hset.
      * destruct (handleModelEvent_frame _ _ _ _ _ Hset) as (Hsame & _).
        fields. rewrite Hsame. fields. rewrite Hduring.
        by rewrite <- !app_assoc.
    + pose proof (model_settles_failure _ _ _ _ _ Hset) as Hws.
      assert (Hmap : taskPresenter ws = taskPresenter w2 ∧ calls ws = calls w2)
        by (by rewrite Hws; destruct reply).
      destruct Hmap as [Hmap Hsame].
      destruct (handleViewAction_settle_aborts a u t reply w2 e ws Hset)
        as (w'' & Hrun' & Hcalls' & _).
      { destruct Hok as [|[|]]; [done|by left|right; by rewrite Hmap]. }
      rewrite Hrun' in Hrun. apply pair_equal_spec in Hrun as [<- <-].
      split; [done|]. rewrite Hcalls', Hsame, Hduring. by rewrite <- !app_assoc.
  - intros Hfail Ha Hnone. destruct o2 as [[]|e]; [done|].
    pose proof (model_settles_failure _ _ _ _ _ Hset) as Hws.
    assert (Hmap : taskPresenter ws = taskPresenter w2 ∧ calls ws = calls w2)
      by (by rewrite Hws; destruct reply).
    destruct Hmap as [Hmap Hsame].
    rewrite (handleViewAction_settle_throws a u t reply w2 e ws Hset Ha) in Hrun
      by (by rewrite Hmap).
    by apply pair_equal_spec in Hrun as [<- <-].
Qed.


(** ** The rendered count and the rendered window *)

Lemma take_min_length {A : Type} (n : nat) (l : list A) :
  take (length l `min` n) l = take n l.
Proof.
  destruct (decide (n ≤ length l)).
  - f_equal. lia.
  - rewrite !take_ge; [done|lia..].
Qed.

Lemma rerender_rendered_window (resetRenderedTaskCount resetSortType : bool) (w : World) :
  isLoading w = false →
  rendered_window (renderBoard (clearBoard resetRenderedTaskCount resetSortType w)).
Proof.
  intros Hl.
  destruct (rerender_window resetRenderedTaskCount resetSortType w Hl) as [_ Hmap].
  revert Hmap.
  generalize (renderBoard (clearBoard resetRenderedTaskCount resetSortType w)).
  intros w' Hmap. unfold rendered_window. cbv zeta.
  rewrite renderTasks_presenters. fields. unfold slice.
  by rewrite drop_0, Nat.sub_0_r, take_min_length.
Qed.

Lemma rerender_models (resetRenderedTaskCount resetSortType : bool) (w : World) :
  tasksModel (renderBoard (clearBoard resetRenderedTaskCount resetSortType w)) = tasksModel w
  ∧ filterModel (renderBoard (clearBoard resetRenderedTaskCount resetSortType w))
    = filterModel w
  ∧ renderedTaskCount (renderBoard (clearBoard resetRenderedTaskCount resetSortType w))
    = (if resetRenderedTaskCount then TASK_COUNT_PER_STEP
       else length (tasks w).1 `min` renderedTaskCount w).
Proof.
  destruct (isLoading w) eqn:Hl.
  - by rewrite rerender_loading.
  - by rewrite rerender_loaded.
Qed.

(** C4 (as amended): in every reachable state the rendered count is at most
    the larger of the page size and the derived length; it starts at the
    page size.  Right after a Major reset (a Major notification of the
    tasks model, whatever collection it then holds, or a filter change to
    whatever category) it is exactly the page size; right after a Minor
    reset, whatever collection the model then holds, it is within the new
    derived length and has not grown.  After each of these resets of a
    loaded board the rendered window is the first min(length, rendered
    count) tasks of the new derived sequence. *)
Theorem renderedTaskCount_bound (collection : list Task) (category : FilterType) (w : World) :
  reachable collection category w →
  renderedTaskCount w ≤ TASK_COUNT_PER_STEP `max` length (tasks w).1
  ∧ renderedTaskCount (init (new_BoardPresenter collection category)) = TASK_COUNT_PER_STEP
  ∧ (∀ c data,
       let w' := (handleModelEvent MAJOR data (set_tasksModel c w)).2 in
       renderedTaskCount w' = TASK_COUNT_PER_STEP
       ∧ (isLoading w = false → rendered_window w'))
  ∧ (∀ f,
       let w' := (filterModel_setFilter MAJOR f w).2 in
       renderedTaskCount w' = TASK_COUNT_PER_STEP
       ∧ (isLoading w = false → rendered_window w'))
  ∧ (∀ c data,
       let w' := (handleModelEvent MINOR data (set_tasksModel c w)).2 in
       renderedTaskCount w' ≤ length (tasks w').1
       ∧ renderedTaskCount w' ≤ renderedTaskCount w
       ∧ (isLoading w = false → rendered_window w')).
Proof.
  intros Hreach. split_and!.
  - by apply (page_invariant_reachable collection category).
  - unfold init. by rewrite renderBoard_loading.
  - intros c data w'.
    assert (Hw' : w' = renderBoard (clearBoard true true (set_tasksModel c w))) by done.
    clearbody w'. subst w'. split.
    + by destruct (rerender_models true true (set_tasksModel c w)) as (_ & _ & ->).
    + intros Hl. by apply rerender_rendered_window.
  - intros f w'.
    assert (Hw' : w' = renderBoard (clearBoard true true
                         (set_filterModel f (record_call (SetFilter MAJOR f) w)))).
    { subst w'. by rewrite filterModel_setFilter_major. }
    clearbody w'. subst w'. split.
    + by destruct (rerender_models true true
                     (set_filterModel f (record_call (SetFilter MAJOR f) w)))
        as (_ & _ & ->).
    + intros Hl. by apply rerender_rendered_window.
  - intros c data w'.
    assert (Hw' : w' = renderBoard (clearBoard false false (set_tasksModel c w))) by done.
    clearbody w'. subst w'.
    destruct (rerender_models false false (set_tasksModel c w)) as (Htm & Hfm & Hrc).
    rewrite Hrc. rewrite (tasks_length (renderBoard _)), Htm, Hfm.
    rewrite <- (tasks_length (set_tasksModel c w)). fields.
    split_and!; [lia..|].
    intros Hl. by apply rerender_rendered_window.
Qed.

(** X9: right after the board was cleared and rendered, a Patch returns
    exactly for the tasks inside the rendered window.  With distinct ids in
    the derived sequence, a Patch for one of its first [renderedTaskCount]
    tasks re-initialises the presenter of that task, and a Patch for a task
    still hidden behind the load-more button throws a [TypeError] and
    changes nothing. *)
Theorem patch_only_inside_window (resetRenderedTaskCount resetSortType : bool)
    (w : World) :
  isLoading w = false →
  let w' := renderBoard (clearBoard resetRenderedTaskCount resetSortType w) in
  NoDup (id <$> (tasks w').1) →
  ∀ i t, (tasks w').1 !! i = Some t →
    (i < renderedTaskCount w' →
     ∃ w'', handleModelEvent PATCH (Some t) w' = (Returns tt, w'')
       ∧ taskPresenter w'' !! id t = Some (presenter_init t))
    ∧ (renderedTaskCount w' ≤ i →
       handleModelEvent PATCH (Some t) w' = (Throws TypeError, w')).
Proof.
  intros Hl w'.
  destruct (rerender_window resetRenderedTaskCount resetSortType w Hl) as [_ Hmap].
  fold w' in Hmap. clearbody w'. intros Hnd i t Hi.
  set (ts := (tasks w').1) in *. clearbody ts.
  unfold handleModelEvent. split.
  - intros Hin.
    assert (Ht : t ∈ take (renderedTaskCount w') ts).
    { apply (list_elem_of_lookup_2 _ i). by rewrite lookup_take_lt. }
    assert (Hnd' : NoDup (id <$> take (renderedTaskCount w') ts)).
    { rewrite fmap_take. eapply sublist_NoDup; [exact Hnd|apply sublist_take]. }
    pose proof (presenters_fresh _ ∅ t Hnd' Ht) as Hp. rewrite <- Hmap in Hp.
    erewrite on_presenter_some by exact Hp.
    eexists. split; [reflexivity|]. fields. apply lookup_insert_eq.
  - intros Hout. apply on_presenter_none. rewrite Hmap.
    rewrite presenters_other; [apply lookup_empty|].
    rewrite fmap_take. intros [j Hj]%list_elem_of_lookup_1.
    assert (Hlt : j < renderedTaskCount w').
    { apply lookup_lt_Some in Hj. rewrite length_take in Hj. lia. }
    rewrite lookup_take_lt in Hj by done.
    assert (Hi' : (id <$> ts) !! i = Some (id t)) by (by rewrite list_lookup_fmap, Hi).
    pose proof (NoDup_lookup _ _ _ _ Hnd Hi' Hj). lia.
Qed.

(** X16: a routed action whose model operation rejects touches one
    controller only, on either side of its [await].  Run in any state in
    which its controller exists, the part up to the [await] and the part
    from the rejection on each return and leave every other item presenter,
    the key set of the map, the models, the rendered count, the sort type
    and the mounted controls as they are. *)
Theorem rejected_action_touches_one_controller (a : UserAction) (u : UpdateType)
    (t : Task) (w : World) :
  a = ADD_TASK ∨ is_Some (taskPresenter w !! id t) →
  (∃ w1, handleViewAction_call a u t w = (Returns tt, w1)
     ∧ same_board w w1
     ∧ (∀ k, k ≠ id t → taskPresenter w1 !! k = taskPresenter w !! k))
  ∧ (∃ w', handleViewAction_settle a u t Rejects w = (Returns tt, w')
     ∧ same_board w w'
     ∧ (∀ k, k ≠ id t → taskPresenter w' !! k = taskPresenter w !! k)).
Proof.
  intros Hctl. split.
  - destruct (handleViewAction_call_returns a u t w Hctl)
      as (w1 & Hcall & _ & Hboard & Hother & _).
    by exists w1.
  - destruct (handleViewAction_settle_aborts a u t Rejects w Rejection w eq_refl Hctl)
      as (w' & Hrun & _ & Hboard & Hother & _).
    by exists w'.
Qed.

(** X17: when an Update settles with a Patch for the same id, what happens
    depends on the board at that time.  If the item presenter of the id
    exists, the action returns after [unblock()] with that presenter
    re-initialised with the payload; the other presenters, the creation
    form, the rendered count, the sort type and the mounted controls are as
    they were, and the collection is the model's new one.  If the presenter
    has been removed while the action awaited, the observer and then the
    [catch] throw: a [TypeError] escapes, [unblock()] is not called, and
    only the collection has changed. *)
Theorem resolved_patch_update (t t' : Task) (collection : list Task) (w : World) :
  id t' = id t →
  (is_Some (taskPresenter w !! id t) →
   ∃ w', handleViewAction_settle UPDATE_TASK PATCH t (Resolves collection (Some t')) w
         = (Returns tt, w')
     ∧ taskPresenter w' !! id t = Some (presenter_init t')
     ∧ (∀ k, k ≠ id t → taskPresenter w' !! k = taskPresenter w !! k)
     ∧ tasksModel w' = collection
     ∧ same_board (set_tasksModel collection w) w'
     ∧ taskNewPresenter w' = taskNewPresenter w
     ∧ calls w' = calls w ++ [Unblock])
  ∧ (taskPresenter w !! id t = None →
     handleViewAction_settle UPDATE_TASK PATCH t (Resolves collection (Some t')) w
     = (Throws TypeError, set_tasksModel collection w)).
Proof.
  intros Hid. split.
  - intros [p Hp].
    erewrite handleViewAction_settle_success; cycle 1.
    { unfold model_settles. rewrite bind_run. unfold handleModelEvent. rewrite Hid.
      by apply on_presenter_some. }
    eexists. split; [reflexivity|]. fields. split_and!; try done.
    + apply lookup_insert_eq.
    + intros k Hk. by rewrite lookup_insert_ne.
    + eapply same_board_trans; [|apply same_board_record_call].
      apply same_board_taskPresenter. fields. apply dom_insert_lookup_L. by eexists.
  - intros Hnone.
    apply (handleViewAction_settle_throws _ _ _ _ _ TypeError); [|done|done].
    unfold model_settles. rewrite bind_run. unfold handleModelEvent. rewrite Hid.
    by apply on_presenter_none.
Qed.

(** ** Consistent comparators *)

Lemma consistent_total (cmp : Task → Task → Z) :
  consistent_comparator cmp → ∀ x y, (0 < cmp x y)%Z → (cmp y x <= 0)%Z.
Proof.
  intros (Hrefl & _ & _ & _ & Hgt) x y Hxy.
  destruct (decide (0 < cmp y x)%Z) as [Hyx|]; [|lia].
  pose proof (Hgt x y x Hxy Hyx). rewrite Hrefl in *. lia.
Qed.

Lemma consistent_opposite (cmp : Task → Task → Z) :
  consistent_comparator cmp → ∀ x y, (cmp x y < 0)%Z → (0 < cmp y x)%Z.
Proof.
  intros (Hrefl & Hsym & _ & Hlt & _) x y Hxy.
  destruct (Z.lt_trichotomy (cmp y x) 0) as [Hyx|[Hyx|Hyx]]; [| |done].
  - pose proof (Hlt x y x Hxy Hyx). rewrite Hrefl in *. lia.
  - apply Hsym in Hyx. lia.
Qed.

Lemma consistent_trans (cmp : Task → Task → Z) :
  consistent_comparator cmp →
  ∀ x y z, (cmp x y <= 0)%Z → (cmp y z <= 0)%Z → (cmp x z <= 0)%Z.
Proof.
  intros Hcons x y z Hxy Hyz.
  pose proof (consistent_opposite cmp Hcons) as Hopp.
  destruct Hcons as (Hrefl & Hsym & Heq & Hlt & Hgt).
  destruct (decide (0 < cmp x z)%Z) as [Hxz|]; [exfalso|lia].
  destruct (decide (cmp x y = 0)%Z) as [Hxy0|Hxy0];
    destruct (decide (cmp y z = 0)%Z) as [Hyz0|Hyz0].
  - pose proof (Heq x y z Hxy0 Hyz0). lia.
  - assert (Hzy : (0 < cmp z y)%Z) by (apply Hopp; lia).
    pose proof (Hgt x z y Hxz Hzy). lia.
  - assert (Hyx : (0 < cmp y x)%Z) by (apply Hopp; lia).
    pose proof (Hgt y x z Hyx Hxz). lia.
  - assert (Hxz' : (cmp x z < 0)%Z) by (apply (Hlt x y z); lia). lia.
Qed.

(** X20: for comparators that are consistent in the sense of ECMAScript,
    the date sorts of the getter are sorted by their comparator, and they
    are the only sorted arrangement that keeps every class of equivalent
    tasks in the order of the filtered collection. *)
Theorem date_sorts_sorted_and_canonical (w : World) :
  consistent_comparator sortTaskUp → consistent_comparator sortTaskDown →
  ∀ cmp,
    (currentSortType w = DATE_UP ∧ cmp = sortTaskUp)
    ∨ (currentSortType w = DATE_DOWN ∧ cmp = sortTaskDown) →
    StronglySorted (λ a b, (cmp a b <= 0)%Z) (tasks w).1
    ∧ ∀ l, StronglySorted (λ a b, (cmp a b <= 0)%Z) l →
           (∀ x, List.filter (λ y, (cmp x y <=? 0)%Z && (cmp y x <=? 0)%Z) l
                 = List.filter (λ y, (cmp x y <=? 0)%Z && (cmp y x <=? 0)%Z)
                     (filterTable (filterModel w) (tasksModel w))) →
           l = (tasks w).1.
Proof.
  intros Hup Hdown cmp Hcmp.
  assert (Hcons : consistent_comparator cmp
    ∧ (tasks w).1 = array_sort cmp (filterTable (filterModel w) (tasksModel w))).
  { unfold tasks. cbn [fst]. fields.
    destruct Hcmp as [[-> ->]|[-> ->]]; by split. }
  destruct Hcons as (Hcons & ->).
  pose proof (consistent_total cmp Hcons) as Ht.
  pose proof (consistent_trans cmp Hcons) as Htr.
  split.
  - by apply array_sort_sorted.
  - intros l Hsorted Hclass. by apply array_sort_canonical.
Qed.

End BoardPresenter.

(** ** The card template *)

Lemma string_app_assoc (s1 s2 s3 : string) : (s1 +:+ s2) +:+ s3 = s1 +:+ (s2 +:+ s3).
Proof.
  induction s1 as [|c s1 IH]; [done|].
  change (String c ((s1 +:+ s2) +:+ s3) = String c (s1 +:+ (s2 +:+ s3))).
  by rewrite IH.
Qed.

Section TaskTemplateFacts.
Variable encode : string → string.
Variable humanizeTaskDueDate : option Z → string.
Variable isTaskExpired : option Z → bool.
Variable isTaskRepeating : list (string * bool) → bool.

(** C10: the markup of a card reads the description only through the
    encoder.  For a task with all other fields fixed there are two strings,
    the markup before and after the text, such that whatever the description
    is, the markup is the first, then the encoded description, then the
    second: the raw description is no part of the template. *)
Theorem description_only_encoded (task : Task) :
  ∃ before after : string, ∀ d : string,
    createTaskTemplate encode humanizeTaskDueDate isTaskExpired isTaskRepeating
      (with_description d task)
    = before +:+ encode d +:+ after.
Proof.
  exists (markup_open +:+ color task +:+ " "
          +:+ (if isTaskExpired (dueDate task) then "card--deadline" else EmptyString)
          +:+ " "
          +:+ (if isTaskRepeating (repeating task) then "card--repeat" else EmptyString)
          +:+ markup_before_archive
          +:+ (if isArchive task then "card__btn--archive card__btn--disabled"
               else "card__btn--archive")
          +:+ markup_before_favorite
          +:+ (if isFavorite task then "card__btn--favorites card__btn--disabled"
               else "card__btn--favorites")
          +:+ markup_before_text).
  exists (markup_before_date +:+ humanizeTaskDueDate (dueDate task) +:+ markup_close).
  intros d. unfold createTaskTemplate. cbn [with_description dueDate repeating color
    isArchive isFavorite description].
  rewrite !string_app_assoc. reflexivity.
Qed.
End TaskTemplateFacts.

(** ** Sorting by due date *)

Lemma StronglySorted_lookup {A : Type} (R : A → A → Prop) (l : list A)
    (i j : nat) (a b : A) :
  StronglySorted R l → i < j → l !! i = Some a → l !! j = Some b → R a b.
Proof.
  intros Hsorted. revert i j.
  induction Hsorted as [|x l _ IH Hx]; intros i j Hij Hi Hj; [done|].
  destruct j as [|j]; [lia|]. destruct i as [|i]; simpl in *.
  - injection Hi as ->. rewrite Forall_forall in Hx.
    apply Hx. by eapply list_elem_of_lookup_2.
  - apply (IH i j); [lia|done..].
Qed.

Lemma dateAscending_total (x y : Task) :
  (0 < dateAscending x y)%Z → (dateAscending y x <= 0)%Z.
Proof. unfold dateAscending. destruct (dueDate x), (dueDate y); lia. Qed.

Lemma dateAscending_trans (x y z : Task) :
  (dateAscending x y <= 0)%Z → (dateAscending y z <= 0)%Z → (dateAscending x z <= 0)%Z.
Proof. unfold dateAscending. destruct (dueDate x), (dueDate y), (dueDate z); lia. Qed.

Lemma dateDescending_total (x y : Task) :
  (0 < dateDescending x y)%Z → (dateDescending y x <= 0)%Z.
Proof. unfold dateDescending. destruct (dueDate x), (dueDate y); lia. Qed.

Lemma dateDescending_trans (x y z : Task) :
  (dateDescending x y <= 0)%Z → (dateDescending y z <= 0)%Z → (dateDescending x z <= 0)%Z.
Proof. unfold dateDescending. destruct (dueDate x), (dueDate y), (dueDate z); lia. Qed.

Lemma dateAscending_consistent : consistent_comparator dateAscending.
Proof.
  unfold consistent_comparator, dateAscending.
  split_and!; intros a; [|intros b..]; try intros c;
    destruct (dueDate a); try destruct (dueDate b); try destruct (dueDate c); lia.
Qed.

Lemma dateDescending_consistent : consistent_comparator dateDescending.
Proof.
  unfold consistent_comparator, dateDescending.
  split_and!; intros a; [|intros b..]; try intros c;
    destruct (dueDate a); try destruct (dueDate b); try destruct (dueDate c); lia.
Qed.

(** Both comparators put a task without due date only before tasks without
    due date, and do not separate tasks with the same key. *)
Lemma dateAscending_absent (a b : Task) :
  (dateAscending a b <= 0)%Z → dueDate a = None → dueDate b = None.
Proof.
  unfold dateAscending. intros Hle Ha. rewrite Ha in Hle.
  destruct (dueDate b); [lia|done].
Qed.

Lemma dateDescending_absent (a b : Task) :
  (dateDescending a b <= 0)%Z → dueDate a = None → dueDate b = None.
Proof.
  unfold dateDescending. intros Hle Ha. rewrite Ha in Hle.
  destruct (dueDate b); [lia|done].
Qed.

Lemma dateAscending_sameKey (k : option Z) (a b : Task) :
  sameKey k a = true → sameKey k b = true → (dateAscending a b <= 0)%Z.
Proof.
  unfold sameKey, dateAscending. intros Ha Hb.
  apply bool_decide_eq_true in Ha, Hb. rewrite Ha, Hb. destruct k; lia.
Qed.

Lemma dateDescending_sameKey (k : option Z) (a b : Task) :
  sameKey k a = true → sameKey k b = true → (dateDescending a b <= 0)%Z.
Proof.
  unfold sameKey, dateDescending. intros Ha Hb.
  apply bool_decide_eq_true in Ha, Hb. rewrite Ha, Hb. destruct k; lia.
Qed.

Lemma absent_last_split (R : Task → Task → Prop) (l : list Task) :
  (∀ a b, R a b → dueDate a = None → dueDate b = None) →
  StronglySorted R l →
  l = List.filter hasDueDate l ++ List.filter (λ t, negb (hasDueDate t)) l.
Proof.
  intros Habsent. induction 1 as [|x l _ IH Hx]; [done|].
  cbn [List.filter]. destruct (hasDueDate x) eqn:Hdated; simpl.
  - by rewrite <- IH.
  - assert (Hdue : dueDate x = None).
    { unfold hasDueDate in Hdated. by destruct (dueDate x). }
    assert (Hnone : List.filter hasDueDate l = []).
    { clear IH. induction l as [|y l IHl]; [done|]. cbn [List.filter].
      apply Forall_cons in Hx as [Hy Hl].
      assert (Hy' : hasDueDate y = false).
      { unfold hasDueDate. by rewrite (Habsent x y Hy Hdue). }
      rewrite Hy'. by apply IHl. }
    rewrite Hnone in *. simpl in *. by rewrite <- IH.
Qed.

(** The date sorts of the getter, over the comparators of the specification,
    are sorted by them. *)
Lemma tasks_date_sorted (filterPredicate : FilterType → Task → bool) (w : World) :
  currentSortType w ≠ DEFAULT →
  ∃ cmp, (cmp = dateAscending ∨ cmp = dateDescending)
    ∧ (tasks filterPredicate dateAscending dateDescending w).1
      = array_sort cmp (filterTable filterPredicate (filterModel w) (tasksModel w))
    ∧ StronglySorted (λ a b, (cmp a b <= 0)%Z)
        (tasks filterPredicate dateAscending dateDescending w).1.
Proof.
  intros Hsort. unfold tasks. simpl. destruct (currentSortType w); [done|..].
  - exists dateAscending. split_and!; [by left|done|].
    apply array_sort_sorted; [apply dateAscending_total|apply dateAscending_trans].
  - exists dateDescending. split_and!; [by right|done|].
    apply array_sort_sorted; [apply dateDescending_total|apply dateDescending_trans].
Qed.

(** C9: in both date sorts the derived sequence is its dated tasks followed
    by its tasks without due date, so no task without due date stands before
    a dated one; and the tasks of one sort key (a date, or no date) stand in
    the order the filtered collection has them. *)
Theorem date_sort_absent_last_stable (filterPredicate : FilterType → Task → bool)
    (w : World) :
  currentSortType w ≠ DEFAULT →
  (tasks filterPredicate dateAscending dateDescending w).1
    = List.filter hasDueDate (tasks filterPredicate dateAscending dateDescending w).1
      ++ List.filter (λ t, negb (hasDueDate t))
           (tasks filterPredicate dateAscending dateDescending w).1
  ∧ (∀ i j a b,
       (tasks filterPredicate dateAscending dateDescending w).1 !! i = Some a →
       (tasks filterPredicate dateAscending dateDescending w).1 !! j = Some b →
       dueDate a = None → dueDate b ≠ None → j < i)
  ∧ (∀ k, List.filter (sameKey k) (tasks filterPredicate dateAscending dateDescending w).1
          = List.filter (sameKey k)
              (filterTable filterPredicate (filterModel w) (tasksModel w))).
Proof.
  intros Hsort.
  destruct (tasks_date_sorted filterPredicate w Hsort) as (cmp & Hcmp & Heq & Hsorted).
  assert (Habsent : ∀ a b, (cmp a b <= 0)%Z → dueDate a = None → dueDate b = None).
  { destruct Hcmp as [->| ->]; [apply dateAscending_absent|apply dateDescending_absent]. }
  split_and!.
  - by apply (absent_last_split (λ a b, (cmp a b <= 0)%Z)).
  - intros i j a b Hi Hj Ha Hb.
    destruct (decide (j < i)) as [|Hge]; [done|]. exfalso.
    destruct (decide (i = j)) as [->|Hne]; [congruence|].
    apply Hb, (Habsent a b); [|done].
    apply (StronglySorted_lookup _ _ i j a b Hsorted); [lia|done..].
  - intros k. rewrite Heq. apply array_sort_stable.
    destruct Hcmp as [->| ->]; [apply dateAscending_sameKey|apply dateDescending_sameKey].
Qed.

(** ** The scenarios, on the sample collections *)

(** The presenter over an empty tasks model, after [init] (still loading)
    and after the initial load has delivered a collection. *)
Local Abbreviation started :=
  (init (categoryPredicate 0) dateAscending dateDescending (new_BoardPresenter [] ALL)).
Local Abbreviation loaded_with collection :=
  (handleModelEvent (categoryPredicate 0) dateAscending dateDescending INIT None
     (set_tasksModel collection started)).2.
Local Abbreviation loaded := (loaded_with sampleCollection).
Local Abbreviation action :=
  (handleViewAction (categoryPredicate 0) dateAscending dateDescending).

Example favorites_scenario :
  (tasks (categoryPredicate 0) dateAscending dateDescending
     (new_BoardPresenter [sampleTask 1 None false; sampleTask 2 None true] FAVORITES)).1
  = [sampleTask 2 None true].
Proof. reflexivity. Qed.

Example date_up_scenario :
  (tasks (categoryPredicate 0) dateAscending dateDescending
     (set_currentSortType DATE_UP (new_BoardPresenter sampleCollection ALL))).1
  = [sampleTask 3 (Some 10%Z) false; sampleTask 1 (Some 30%Z) false; sampleTask 2 None true].
Proof. reflexivity. Qed.

Example date_down_scenario :
  (tasks (categoryPredicate 0) dateAscending dateDescending
     (set_currentSortType DATE_DOWN (new_BoardPresenter sampleCollection ALL))).1
  = [sampleTask 1 (Some 30%Z) false; sampleTask 3 (Some 10%Z) false; sampleTask 2 None true].
Proof. reflexivity. Qed.

Example loaded_board :
  renderedTaskCount loaded = 8 ∧ size (taskPresenter loaded) = 3
  ∧ loadMoreButtonComponent loaded = false ∧ sortComponent loaded = Some DEFAULT.
Proof. vm_compute. done. Qed.

(** C2, as stated, fails: on the loaded board no item presenter has id 7,
    and a Delete for id 7 does not return; a [TypeError] escapes. *)
Lemma stale_reference_escapes :
  taskPresenter loaded !! 7 = None
  ∧ ¬ ∃ w', action DELETE_TASK MINOR (sampleTask 7 None false) Rejects loaded
             = (Returns tt, w').
Proof.
  split; [vm_compute; reflexivity|].
  intros [w' Hrun]. vm_compute in Hrun. discriminate Hrun.
Qed.

(** The amended C2 on the same board, for an Update of id 7. *)
Lemma stale_reference_throws_witness :
  action UPDATE_TASK MINOR (sampleTask 7 None false) Rejects loaded
  = (Throws TypeError, record_call Block loaded).
Proof.
  refine (proj1 (stale_reference_throws (categoryPredicate 0) dateAscending dateDescending
                   UPDATE_TASK MINOR (sampleTask 7 None false) Rejects loaded _ _)).
  - discriminate.
  - vm_compute. reflexivity.
Defined.

(** C3, as stated, fails: the same stale Update throws after [block()]
    without having called [unblock()]. *)
Lemma stale_reference_leaves_blocked :
  (action UPDATE_TASK PATCH (sampleTask 7 None false)
     (Resolves sampleCollection (Some (sampleTask 7 None false))) loaded).1
  = Throws TypeError
  ∧ calls (action UPDATE_TASK PATCH (sampleTask 7 None false)
             (Resolves sampleCollection (Some (sampleTask 7 None false))) loaded).2
    = [Block].
Proof. vm_compute. done. Qed.

(** The amended C3 on the loaded board: an Update of task 1. *)
Lemma blocks_around_model_call_witness :
  ∃ w1, handleViewAction_call UPDATE_TASK PATCH (sampleTask 1 (Some 99%Z) true) loaded
        = (Returns tt, w1)
    ∧ calls w1
      = calls loaded ++ [Block; ModelCall UPDATE_TASK PATCH (sampleTask 1 (Some 99%Z) true)].
Proof.
  refine (let H := blocks_around_model_call (categoryPredicate 0) dateAscending dateDescending
                     UPDATE_TASK PATCH (sampleTask 1 (Some 99%Z) true) Rejects loaded _ in
          match H with
          | ex_intro _ w1 H' => ex_intro _ w1 (conj (proj1 H') (proj1 (proj2 H')))
          end).
  right. vm_compute. by eexists.
Defined.

(** C4, as stated, fails: the loaded board with three tasks is reachable and
    its rendered count, eight, exceeds the derived length, three. *)
Lemma rendered_count_exceeds_length :
  reachable (categoryPredicate 0) dateAscending dateDescending [] ALL loaded
  ∧ ¬ renderedTaskCount loaded
      ≤ length (tasks (categoryPredicate 0) dateAscending dateDescending loaded).1.
Proof.
  split.
  - eapply rtc_once.
    eapply (step_notify _ _ _ started INIT sampleCollection None (Returns tt));
      [reflexivity|vm_compute; reflexivity].
  - vm_compute. lia.
Qed.

(** The amended C4 on the loaded board. *)
Lemma renderedTaskCount_bound_witness :
  renderedTaskCount loaded
  ≤ TASK_COUNT_PER_STEP
    `max` length (tasks (categoryPredicate 0) dateAscending dateDescending loaded).1.
Proof.
  refine (proj1 (renderedTaskCount_bound (categoryPredicate 0) dateAscending dateDescending
                   [] ALL loaded _)).
  eapply rtc_once.
  eapply (step_notify _ _ _ started INIT sampleCollection None (Returns tt));
    [reflexivity|vm_compute; reflexivity].
Defined.

(** The loaded board while an Update of task 1 awaits its operation, and
    after a change of the filter to FAVORITES in the meantime. *)
Local Abbreviation awaiting :=
  (handleViewAction_call UPDATE_TASK PATCH (sampleTask 1 (Some 30%Z) true) loaded).2.
Local Abbreviation filtered :=
  (filterModel_setFilter (categoryPredicate 0) dateAscending dateDescending MAJOR FAVORITES
     awaiting).2.



(** C9 on the sample collection, sorted by descending date. *)
Lemma date_sort_witness :
  List.filter (sameKey None)
    (tasks (categoryPredicate 0) dateAscending dateDescending
       (set_currentSortType DATE_DOWN (new_BoardPresenter sampleCollection ALL))).1
  = List.filter (sameKey None) sampleCollection.
Proof.
  refine (proj2 (proj2 (date_sort_absent_last_stable (categoryPredicate 0)
            (set_currentSortType DATE_DOWN (new_BoardPresenter sampleCollection ALL)) _))
            None).
  discriminate.
Defined.

(** The scenario of C7 on ten sample tasks. *)
Lemma load_more_click_scenario :
  size (taskPresenter (loaded_with tenTasks)) = 8
  ∧ loadMoreButtonComponent (loaded_with tenTasks) = true
  ∧ size (taskPresenter
            (handleLoadMoreButtonClick (categoryPredicate 0) dateAscending dateDescending
               (loaded_with tenTasks))) = 10
  ∧ loadMoreButtonComponent
      (handleLoadMoreButtonClick (categoryPredicate 0) dateAscending dateDescending
         (loaded_with tenTasks)) = false.
Proof.
  destruct (load_more_click (categoryPredicate 0) dateAscending dateDescending
              (loaded_with tenTasks)) as (_ & _ & _ & _ & _ & _ & Hscenario).
  destruct (Hscenario tenTasks ALL) as (_ & H8 & _ & Hbutton & _ & H10 & _ & Hgone).
  - vm_compute. reflexivity.
  - refine (bool_decide_unpack _ _). vm_compute. exact I.
  - split_and!; [exact H8|exact Hbutton|exact H10|exact Hgone].
Defined.

(** ** The buttons of the card *)

Lemma drop_prefix_spec (needle s rest : string) :
  drop_prefix needle s = Some rest → s = needle +:+ rest.
Proof.
  revert s. induction needle as [|a needle IH]; intros s Hdrop.
  - destruct s; simpl in Hdrop; injection Hdrop as <-; reflexivity.
  - destruct s as [|b s]; [done|]. simpl in Hdrop.
    destruct (Ascii.eqb a b) eqn:Hab; [|done].
    apply Ascii.eqb_eq in Hab as ->.
    change (String b s = String b (needle +:+ rest)).
    by rewrite (IH s Hdrop).
Qed.

Lemma split_at_spec (needle s before rest : string) :
  split_at needle s = Some (before, rest) → s = before +:+ needle +:+ rest.
Proof.
  revert before. induction s as [|c s IH]; intros before Hsplit.
  - simpl in Hsplit. destruct (drop_prefix needle EmptyString) as [r|] eqn:Hdrop; [|done].
    injection Hsplit as <- <-. exact (drop_prefix_spec _ _ _ Hdrop).
  - simpl in Hsplit. destruct (drop_prefix needle (String c s)) as [r|] eqn:Hdrop.
    + injection Hsplit as <- <-. exact (drop_prefix_spec _ _ _ Hdrop).
    + destruct (split_at needle s) as [[b r]|]; [|done].
      injection Hsplit as <- <-.
      change (String c s = String c (b +:+ needle +:+ r)).
      by rewrite (IH b eq_refl).
Qed.

Lemma contains_split (needle s : string) :
  is_Some (split_at needle s) → contains needle s.
Proof. intros [[before rest] Hsplit]. exists before, rest. by apply split_at_spec. Qed.

Lemma contains_after (needle s1 s2 : string) :
  contains needle s2 → contains needle (s1 +:+ s2).
Proof.
  intros (before & rest & ->). exists (s1 +:+ before), rest.
  by rewrite string_app_assoc.
Qed.

Lemma contains_before (needle s1 s2 : string) :
  contains needle s1 → contains needle (s1 +:+ s2).
Proof.
  intros (before & rest & ->). exists before, (rest +:+ s2).
  by rewrite !string_app_assoc.
Qed.

Section TaskTemplateButtons.
Variable encode : string → string.
Variable humanizeTaskDueDate : option Z → string.
Variable isTaskExpired : option Z → bool.
Variable isTaskRepeating : list (string * bool) → bool.

(** X21: whatever the task, the markup of its card holds the three class
    names by which the view finds its buttons, [card__btn--edit],
    [card__btn--archive] and [card__btn--favorites]; an archived or
    favourite task adds [card__btn--disabled] after the class name and does
    not replace it. *)
Theorem card_has_its_buttons (task : Task) :
  let markup :=
    createTaskTemplate encode humanizeTaskDueDate isTaskExpired isTaskRepeating task in
  contains "card__btn--edit" markup
  ∧ contains "card__btn--archive" markup
  ∧ contains "card__btn--favorites" markup
  ∧ (isArchive task = true → contains "card__btn--archive card__btn--disabled" markup)
  ∧ (isFavorite task = true → contains "card__btn--favorites card__btn--disabled" markup).
Proof.
  cbv zeta. unfold createTaskTemplate. cbv zeta.
  split_and!.
  - do 6 apply contains_after. apply contains_before.
    apply contains_split. vm_compute. by eexists.
  - do 7 apply contains_after. apply contains_before.
    apply contains_split. destruct (isArchive task); vm_compute; by eexists.
  - do 9 apply contains_after. apply contains_before.
    apply contains_split. destruct (isFavorite task); vm_compute; by eexists.
  - intros ->. do 7 apply contains_after. apply contains_before.
    apply contains_split. vm_compute. by eexists.
  - intros ->. do 9 apply contains_after. apply contains_before.
    apply contains_split. vm_compute. by eexists.
Qed.
End TaskTemplateButtons.

(** ** The card view *)

Section TaskViewFacts.
Context {Callback : Type}.
Implicit Types (v : TaskView Callback) (callback : Callback).

Lemma addEventListener_NoDup (listener : CardButton * ClickHandler)
    (registered : list (CardButton * ClickHandler)) :
  NoDup registered → NoDup (addEventListener listener registered).
Proof.
  intros Hnodup. unfold addEventListener. case_decide; [done|].
  apply NoDup_app. split_and!; [done| |apply NoDup_singleton].
  intros x Hx ->%list_elem_of_singleton. done.
Qed.

Lemma addEventListener_elem_of (listener x : CardButton * ClickHandler)
    (registered : list (CardButton * ClickHandler)) :
  x ∈ addEventListener listener registered ↔ x = listener ∨ x ∈ registered.
Proof.
  unfold addEventListener. case_decide.
  - split; [by right|]. by intros [->|].
  - rewrite elem_of_app, list_elem_of_singleton. tauto.
Qed.

Lemma listeners_ok_new (task : Task) : listeners_ok (@new_TaskView Callback task).
Proof.
  split; [apply NoDup_nil_2|]. intros button handler Hin.
  simpl in Hin. by apply elem_of_nil in Hin.
Qed.

Lemma listeners_ok_set (button : CardButton) v v' :
  listeners_ok v →
  listeners v' = addEventListener (button, handler_of button) (listeners v) →
  is_Some (callback_of (handler_of button) v') →
  (∀ handler, is_Some (callback_of handler v) → is_Some (callback_of handler v')) →
  listeners_ok v'.
Proof.
  intros [Hnodup Hok] Hlisteners Hset Hkeep. split.
  - rewrite Hlisteners. by apply addEventListener_NoDup.
  - intros b h. rewrite Hlisteners, addEventListener_elem_of.
    intros [[= -> ->]|Hin]; [done|].
    destruct (Hok b h Hin) as [-> Hsome]. split; [done|]. by apply Hkeep.
Qed.

Lemma listeners_ok_setEditClickHandler callback v :
  listeners_ok v → listeners_ok (setEditClickHandler callback v).
Proof.
  intros Hok. apply (listeners_ok_set EditButton v); [done|done|by eexists|].
  intros []; simpl; eauto.
Qed.

Lemma listeners_ok_setFavoriteClickHandler callback v :
  listeners_ok v → listeners_ok (setFavoriteClickHandler callback v).
Proof.
  intros Hok. apply (listeners_ok_set FavoritesButton v); [done|done|by eexists|].
  intros []; simpl; eauto.
Qed.

Lemma listeners_ok_setArchiveClickHandler callback v :
  listeners_ok v → listeners_ok (setArchiveClickHandler callback v).
Proof.
  intros Hok. apply (listeners_ok_set ArchiveButton v); [done|done|by eexists|].
  intros []; simpl; eauto.
Qed.

(** A click on a button runs the handler of the button once if it is
    registered, and nothing otherwise. *)
Lemma click_registered (button : CardButton) v :
  listeners_ok v →
  click button v
  = if decide ((button, handler_of button) ∈ listeners v)
    then handle_click (handler_of button) v else [].
Proof.
  intros [Hnodup Hok]. unfold click.
  assert (Hcanon : ∀ b h, (b, h) ∈ listeners v → h = handler_of b)
    by (intros b h Hin; by destruct (Hok b h Hin)).
  clear Hok. induction (listeners v) as [|[b h] ls IH]; [done|].
  apply NoDup_cons in Hnodup as [Hfresh Hnodup].
  assert (h = handler_of b) as -> by (apply Hcanon; left).
  rewrite fmap_cons. cbn [concat fst snd].
  rewrite IH; [|done|by intros b' h' Hin; apply Hcanon; right].
  destruct (decide (b = button)) as [->|Hne].
  - destruct (decide ((button, handler_of button) ∈ ls)); [done|].
    destruct (decide ((button, handler_of button) ∈ (button, handler_of button) :: ls))
      as [_|Hnin]; [by rewrite app_nil_r|].
    exfalso. apply Hnin. left.
  - simpl. destruct (decide ((button, handler_of button) ∈ ls)) as [Hin|Hnin].
    + rewrite decide_True; [done|by right].
    + rewrite decide_False; [done|].
      intros [[= ->]|Hin]%elem_of_cons; done.
Qed.

(** X22: on a view whose listeners the setters registered, the setter of a
    button makes a click on it prevent the default action and then call the
    callback given, once; this holds as well when a callback was set
    before, which the new one replaces without a second listener. *)
Theorem click_calls_latest_callback v callback :
  listeners_ok v →
  click EditButton (setEditClickHandler callback v) = [PreventDefault; Invoke callback]
  ∧ click FavoritesButton (setFavoriteClickHandler callback v)
    = [PreventDefault; Invoke callback]
  ∧ click ArchiveButton (setArchiveClickHandler callback v)
    = [PreventDefault; Invoke callback]
  ∧ listeners_ok (setEditClickHandler callback v)
  ∧ listeners_ok (setFavoriteClickHandler callback v)
  ∧ listeners_ok (setArchiveClickHandler callback v).
Proof.
  intros Hok. split_and!.
  - rewrite click_registered by by apply listeners_ok_setEditClickHandler.
    rewrite decide_True; [done|]. simpl. apply addEventListener_elem_of. by left.
  - rewrite click_registered by by apply listeners_ok_setFavoriteClickHandler.
    rewrite decide_True; [done|]. simpl. apply addEventListener_elem_of. by left.
  - rewrite click_registered by by apply listeners_ok_setArchiveClickHandler.
    rewrite decide_True; [done|]. simpl. apply addEventListener_elem_of. by left.
  - by apply listeners_ok_setEditClickHandler.
  - by apply listeners_ok_setFavoriteClickHandler.
  - by apply listeners_ok_setArchiveClickHandler.
Qed.

Lemma click_other (button other : CardButton) v v' :
  listeners_ok v → listeners_ok v' →
  other ≠ button →
  listeners v' = addEventListener (other, handler_of other) (listeners v) →
  callback_of (handler_of button) v' = callback_of (handler_of button) v →
  click button v' = click button v.
Proof.
  intros Hok Hok' Hne Hlisteners Hcallback.
  rewrite !click_registered by done. unfold handle_click. rewrite Hcallback.
  destruct (decide ((button, handler_of button) ∈ listeners v)) as [Hin|Hnin].
  - rewrite decide_True; [done|].
    rewrite Hlisteners. apply addEventListener_elem_of. by right.
  - rewrite decide_False; [done|].
    rewrite Hlisteners, addEventListener_elem_of. intros [[= ->]|]; done.
Qed.

(** X23: the three buttons of a card are independent, and a click never
    calls a callback that was not set.  A new view reacts to no click;
    setting the handler of one button leaves the clicks on the two others
    as they were; and on a view whose listeners the setters registered no
    click ends in the [TypeError] of an unset callback. *)
Theorem click_buttons_independent v callback :
  listeners_ok v →
  (∀ button task, click button (@new_TaskView Callback task) = [])
  ∧ (∀ button, button ≠ EditButton →
       click button (setEditClickHandler callback v) = click button v)
  ∧ (∀ button, button ≠ FavoritesButton →
       click button (setFavoriteClickHandler callback v) = click button v)
  ∧ (∀ button, button ≠ ArchiveButton →
       click button (setArchiveClickHandler callback v) = click button v)
  ∧ (∀ button, UncaughtTypeError ∉ click button v).
Proof.
  intros Hok. split_and!.
  - done.
  - intros button Hne.
    apply (click_other button EditButton);
      [done|by apply listeners_ok_setEditClickHandler|done|done|].
    by destruct button.
  - intros button Hne.
    apply (click_other button FavoritesButton);
      [done|by apply listeners_ok_setFavoriteClickHandler|done|done|].
    by destruct button.
  - intros button Hne.
    apply (click_other button ArchiveButton);
      [done|by apply listeners_ok_setArchiveClickHandler|done|done|].
    by destruct button.
  - intros button. rewrite click_registered by done.
    case_decide as Hin; [|apply not_elem_of_nil].
    destruct Hok as [_ Hok]. destruct (Hok _ _ Hin) as [_ [cb Hcb]].
    unfold handle_click. rewrite Hcb.
    intros [[=]|[[=]|[]%elem_of_nil]%elem_of_cons]%elem_of_cons.
Qed.
End TaskViewFacts.

(** ** The properties on the sample boards *)

Local Abbreviation notify :=
  (handleModelEvent (categoryPredicate 0) dateAscending dateDescending).
Local Abbreviation derived w :=
  (tasks (categoryPredicate 0) dateAscending dateDescending w).1.
Local Abbreviation reached :=
  (reachable (categoryPredicate 0) dateAscending dateDescending [] ALL).
Local Abbreviation sortChange :=
  (handleSortTypeChange (categoryPredicate 0) dateAscending dateDescending).

Lemma reached_loaded : reached loaded.
Proof.
  eapply rtc_once.
  eapply (step_notify _ _ _ started INIT sampleCollection None (Returns tt));
    [reflexivity|vm_compute; reflexivity].
Qed.

Lemma reached_loaded_ten : reached (loaded_with tenTasks).
Proof.
  eapply rtc_once.
  eapply (step_notify _ _ _ started INIT tenTasks None (Returns tt));
    [reflexivity|vm_compute; reflexivity].
Qed.

Lemma reached_loaded_empty : reached (loaded_with []).
Proof.
  eapply rtc_once.
  eapply (step_notify _ _ _ started INIT [] None (Returns tt));
    [reflexivity|vm_compute; reflexivity].
Qed.

(** The board that has started and is still loading. *)
Lemma loading_shows_only_indicator_witness :
  loadingComponent started = true ∧ taskPresenter started = ∅
  ∧ sortComponent started = None ∧ noTaskComponent started = None
  ∧ loadMoreButtonComponent started = false.
Proof.
  refine (loading_shows_only_indicator (categoryPredicate 0) dateAscending dateDescending
            [] ALL started _ _).
  - apply rtc_refl.
  - reflexivity.
Defined.

(** The board loaded with ten tasks shows eight and the button. *)
Lemma load_more_button_iff_hidden_witness :
  loadingComponent (loaded_with tenTasks) = false
  ∧ (loadMoreButtonComponent (loaded_with tenTasks) = true
     ↔ renderedTaskCount (loaded_with tenTasks) < length (derived (loaded_with tenTasks))).
Proof.
  refine (load_more_button_iff_hidden (categoryPredicate 0) dateAscending dateDescending
            [] ALL (loaded_with tenTasks) _ _).
  - exact reached_loaded_ten.
  - reflexivity.
Defined.

(** The sort control of the loaded board. *)
Lemma sort_control_shows_current_witness :
  sortComponent loaded = Some (currentSortType loaded).
Proof.
  refine (proj2 (sort_control_shows_current (categoryPredicate 0) dateAscending
                   dateDescending [] ALL loaded _) _ _).
  - exact reached_loaded.
  - reflexivity.
  - vm_compute. lia.
Defined.

(** The board loaded with an empty collection shows the placeholder. *)
Lemma placeholder_iff_empty_witness :
  noTaskComponent (loaded_with []) = Some (filterModel (loaded_with [])).
Proof.
  refine (proj2 (placeholder_iff_empty (categoryPredicate 0) dateAscending
                   dateDescending [] ALL (loaded_with []) _) _ _).
  - exact reached_loaded_empty.
  - reflexivity.
  - reflexivity.
Defined.

Lemma presenters_within_count_witness :
  size (taskPresenter loaded) ≤ renderedTaskCount loaded.
Proof.
  refine (presenters_within_count (categoryPredicate 0) dateAscending dateDescending
            [] ALL loaded _).
  exact reached_loaded.
Defined.

(** The loaded board, sorted by ascending date. *)
Lemma sort_change_rerenders_witness :
  currentSortType (sortChange DATE_UP loaded) = DATE_UP
  ∧ renderedTaskCount (sortChange DATE_UP loaded) = TASK_COUNT_PER_STEP.
Proof.
  refine (let H := sort_change_rerenders (categoryPredicate 0) dateAscending
                     dateDescending DATE_UP loaded _ _ in
          conj (proj1 H) (proj1 (proj2 H))).
  - vm_compute. discriminate.
  - reflexivity.
Defined.

(** A Patch for task 2 of the loaded board. *)
Lemma patch_reinitialises_one_witness :
  ∃ w', notify PATCH (Some (sampleTask 2 None false)) loaded = (Returns tt, w')
    ∧ taskPresenter w' !! id (sampleTask 2 None false)
      = Some (presenter_init (sampleTask 2 None false)).
Proof.
  refine (let H := patch_reinitialises_one (categoryPredicate 0) dateAscending
                     dateDescending (sampleTask 2 None false) loaded _ in
          match H with
          | ex_intro _ w' H' => ex_intro _ w' (conj (proj1 H') (proj1 (proj2 H')))
          end).
  vm_compute. by eexists.
Defined.

(** A Major notification on the loaded board. *)
Lemma major_notification_witness :
  (notify MAJOR None loaded).1 = Returns tt
  ∧ renderedTaskCount (notify MAJOR None loaded).2 = TASK_COUNT_PER_STEP.
Proof.
  refine (let H := major_notification (categoryPredicate 0) dateAscending
                     dateDescending None loaded _ in
          conj (proj1 H) (proj1 (proj2 H))).
  reflexivity.
Defined.

(** A Minor notification on the board loaded with an empty collection. *)
Lemma minor_on_empty_witness :
  renderedTaskCount (notify MINOR None (loaded_with [])).2 = 0
  ∧ noTaskComponent (notify MINOR None (loaded_with [])).2
    = Some (filterModel (loaded_with [])).
Proof.
  refine (let H := minor_on_empty (categoryPredicate 0) dateAscending
                     dateDescending None (loaded_with []) _ _ in
          conj (proj1 H) (proj1 (proj2 H))).
  - reflexivity.
  - reflexivity.
Defined.

(** The empty board, a Minor notification, and then the sample collection
    with a second Minor notification. *)
Lemma minor_after_empty_renders_no_card_witness :
  renderedTaskCount
    (notify MINOR None
       (set_tasksModel sampleCollection (notify MINOR None (loaded_with [])).2)).2 = 0
  ∧ taskPresenter
      (notify MINOR None
         (set_tasksModel sampleCollection (notify MINOR None (loaded_with [])).2)).2 = ∅.
Proof.
  refine (let H := minor_after_empty_renders_no_card (categoryPredicate 0) dateAscending
                     dateDescending None None sampleCollection (loaded_with []) _ _ _ in
          conj (proj1 H) (proj1 (proj2 H))).
  - reflexivity.
  - reflexivity.
  - vm_compute. lia.
Defined.


(** The rejection of a Delete of task 2 on the loaded board. *)
Lemma rejected_action_touches_one_controller_witness :
  ∃ w', handleViewAction_settle (categoryPredicate 0) dateAscending dateDescending
          DELETE_TASK MINOR (sampleTask 2 None true) Rejects loaded = (Returns tt, w')
    ∧ same_board loaded w'.
Proof.
  refine (let H := proj2 (rejected_action_touches_one_controller (categoryPredicate 0) dateAscending dateDescending
                     DELETE_TASK MINOR (sampleTask 2 None true) loaded _) in
          match H with
          | ex_intro _ w' H' => ex_intro _ w' (conj (proj1 H') (proj1 (proj2 H')))
          end).
  right. vm_compute. by eexists.
Defined.

(** The settlement of an Update of task 2 on the loaded board. *)
Lemma resolved_patch_update_witness :
  ∃ w', handleViewAction_settle (categoryPredicate 0) dateAscending dateDescending
          UPDATE_TASK PATCH (sampleTask 2 None true)
          (Resolves [sampleTask 1 (Some 30%Z) false; sampleTask 2 None false;
                     sampleTask 3 (Some 10%Z) false]
             (Some (sampleTask 2 None false)))
          loaded = (Returns tt, w')
    ∧ taskPresenter w' !! id (sampleTask 2 None true)
      = Some (presenter_init (sampleTask 2 None false)).
Proof.
  refine (let H := proj1 (resolved_patch_update (categoryPredicate 0) dateAscending dateDescending
                     (sampleTask 2 None true) (sampleTask 2 None false)
                     [sampleTask 1 (Some 30%Z) false; sampleTask 2 None false;
                      sampleTask 3 (Some 10%Z) false] loaded _) _ in
          match H with
          | ex_intro _ w' H' => ex_intro _ w' (conj (proj1 H') (proj1 (proj2 H')))
          end).
  - reflexivity.
  - vm_compute. by eexists.
Defined.

(** The board with ten tasks, rendered again: task 9 is behind the
    load-more button. *)
Lemma patch_only_inside_window_witness :
  notify PATCH (Some (sampleTask 9 None false))
    (renderBoard (categoryPredicate 0) dateAscending dateDescending
       (clearBoard (categoryPredicate 0) dateAscending dateDescending true true
          (loaded_with tenTasks)))
  = (Throws TypeError,
     renderBoard (categoryPredicate 0) dateAscending dateDescending
       (clearBoard (categoryPredicate 0) dateAscending dateDescending true true
          (loaded_with tenTasks))).
Proof.
  refine (proj2 (patch_only_inside_window (categoryPredicate 0) dateAscending dateDescending
                   true true (loaded_with tenTasks) _ _ 8 (sampleTask 9 None false) _) _).
  - reflexivity.
  - refine (bool_decide_unpack _ _). vm_compute. exact I.
  - vm_compute. reflexivity.
  - vm_compute. lia.
Defined.

(** The creation form opened on the loaded board. *)
Lemma createTask_renders_first_page_witness :
  (createTask (categoryPredicate 0) dateAscending dateDescending loaded).1 = Returns tt
  ∧ taskNewPresenter (createTask (categoryPredicate 0) dateAscending dateDescending loaded).2
    = Active.
Proof.
  refine (let H := createTask_renders_first_page (categoryPredicate 0) dateAscending
                     dateDescending loaded _ in
          conj (proj1 H) (proj1 (proj2 H))).
  reflexivity.
Defined.

(** The two date comparators are consistent. *)
Lemma date_sorts_sorted_and_canonical_witness :
  StronglySorted (λ a b, (dateAscending a b <= 0)%Z)
    (derived (set_currentSortType DATE_UP (new_BoardPresenter sampleCollection ALL))).
Proof.
  refine (proj1 (date_sorts_sorted_and_canonical (categoryPredicate 0) dateAscending
                   dateDescending
                   (set_currentSortType DATE_UP (new_BoardPresenter sampleCollection ALL))
                   dateAscending_consistent dateDescending_consistent dateAscending _)).
  left. split; reflexivity.
Defined.

(** A card whose edit callback is set a second time. *)
Lemma click_calls_latest_callback_witness :
  click EditButton
    (setEditClickHandler 7 (setEditClickHandler 3 (new_TaskView (sampleTask 1 None false))))
  = [PreventDefault; Invoke 7].
Proof.
  refine (proj1 (click_calls_latest_callback
                   (setEditClickHandler 3 (new_TaskView (sampleTask 1 None false))) 7 _)).
  apply listeners_ok_setEditClickHandler, listeners_ok_new.
Defined.

(** Setting the edit callback of a card with a favourite callback. *)
Lemma click_buttons_independent_witness :
  click FavoritesButton
    (setEditClickHandler 7 (setFavoriteClickHandler 3 (new_TaskView (sampleTask 1 None false))))
  = click FavoritesButton (setFavoriteClickHandler 3 (new_TaskView (sampleTask 1 None false))).
Proof.
  refine (proj1 (proj2 (click_buttons_independent
                   (setFavoriteClickHandler 3 (new_TaskView (sampleTask 1 None false))) 7 _))
            FavoritesButton _).
  - apply listeners_ok_setFavoriteClickHandler, listeners_ok_new.
  - discriminate.
Defined.
